(** * PYCOF: [remote_execute_sql] (src/pycof/sql.py)

    A shallow embedding of the SQL entry point of the package and the
    properties of its query-type classification, table validation, file
    handling and tunnel scoping.

    Python [str] values are represented by [string]; the embedding is exact
    on ASCII text, where [str.upper] and [str.lower] act letter by letter.
    Calls into collaborators of the package ([f_read], [_get_credentials],
    [SSHTunnel], [pandas.read_sql], [_cache], [_insert_data], the DB-API
    connection) are recorded in a trace of events, and what each of them
    answers is read from a [World]. *)

From Stdlib Require Import String Ascii List Bool Arith Lia.
From Stdlib Require Import ZArith DecimalString DecimalPos DecimalZ.
Import ListNotations.
Open Scope string_scope.

(** ** Python string operations *)

Module PyStr.

Definition upper_char (c : ascii) : ascii :=
  let n := nat_of_ascii c in
  if ((97 <=? n) && (n <=? 122))%nat then ascii_of_nat (n - 32) else c.

Definition lower_char (c : ascii) : ascii :=
  let n := nat_of_ascii c in
  if ((65 <=? n) && (n <=? 90))%nat then ascii_of_nat (n + 32) else c.

Fixpoint map_chars (f : ascii -> ascii) (s : string) : string :=
  match s with
  | EmptyString => EmptyString
  | String c s' => String (f c) (map_chars f s')
  end.

(** [s.upper()] and [s.lower()]. *)
Definition upper : string -> string := map_chars upper_char.
Definition lower : string -> string := map_chars lower_char.

(** [s.replace(a, b)] for one-character [a] and [b]. *)
Definition replace_char (a b : ascii) : string -> string :=
  map_chars (fun c => if Ascii.eqb c a then b else c).

Definition newline : ascii := ascii_of_nat 10.
Definition space : ascii := ascii_of_nat 32.

(** [sub in s]. *)
Fixpoint py_in (sub s : string) : bool :=
  match s with
  | EmptyString => prefix sub EmptyString
  | String _ s' => prefix sub s || py_in sub s'
  end.

Fixpoint drop (n : nat) (s : string) : string :=
  match n, s with
  | O, _ => s
  | S _, EmptyString => EmptyString
  | S k, String _ s' => drop k s'
  end.

(** [s.split(sep)] for a non-empty separator: occurrences are taken from
    the left and do not overlap.  [skip] counts the characters of a
    separator just matched that are still to be passed over; the head of
    the result is the piece being read. *)
Fixpoint split_go (sep : string) (skip : nat) (s : string) : list string :=
  match s with
  | EmptyString => [EmptyString]
  | String c s' =>
      match skip with
      | S k => split_go sep k s'
      | O =>
          if prefix sep s
          then EmptyString :: split_go sep (String.length sep - 1) s'
          else match split_go sep 0 s' with
               | p :: ps => String c p :: ps
               | [] => [String c EmptyString]
               end
      end
  end.

Definition split (sep s : string) : list string := split_go sep 0 s.

(** [sep.join(xs)]. *)
Fixpoint join (sep : string) (xs : list string) : string :=
  match xs with
  | [] => EmptyString
  | [x] => x
  | x :: rest => x ++ sep ++ join sep rest
  end.

(** The text before the first occurrence of [sep] (all of [s] when there
    is none), and the text after it. *)
Fixpoint before (sep s : string) : string :=
  match s with
  | EmptyString => EmptyString
  | String c s' => if prefix sep s then EmptyString else String c (before sep s')
  end.

Fixpoint after_first (sep s : string) : option string :=
  match s with
  | EmptyString => None
  | String _ s' => if prefix sep s then Some (drop (String.length sep) s) else after_first sep s'
  end.

End PyStr.

Import PyStr.


(** ** Values, exceptions and events *)

(** A [pandas.DataFrame]: rows of cells. *)
Definition DataFrame : Type := list (list string).

(** The [sql_query] argument: a [str], or a [DataFrame] passed in its place. *)
Inductive sql_arg : Type :=
| QStr (s : string)
| QFrame (df : DataFrame).

(** The [data] argument: a [DataFrame], or the default [{}]. *)
Inductive data_arg : Type :=
| DDict
| DFrame (df : DataFrame).

(** The exceptions the function raises itself, and those of collaborators. *)
Inductive exn : Type :=
| ValueError (msg : string)
| SyntaxError (msg : string)
| AssertionError (msg : string)
| IndexError
| AttributeError
| BackendError (msg : string).

Inductive event : Type :=
| EvFileRead (path : string)
| EvCredentials (connection : string)
| EvTunnelEnter (connection engine : string)
| EvTunnelExit
| EvConnector
| EvReadSql (q : sql_arg)
| EvCache (q : sql_arg) (sql_type cache_time : string)
| EvInsertData (d : data_arg) (table : string) (autofill_nan verbose : bool)
| EvCursor
| EvExecute (q : string)
| EvCommit
| EvConnClose.

(** What the collaborators answer.  [None] is a call that returns, [Some e]
    one that raises [e]. *)
Record World : Type := {
  f_read : string -> exn + string;
  get_credentials : option exn;
  tunnel_enter : option exn;
  tunnel_exit : option exn;
  connector : option exn;
  read_sql : sql_arg -> exn + DataFrame;
  cached_read : sql_arg -> exn + DataFrame;
  insert_data : data_arg -> string -> option exn;
  cursor : option exn;
  execute : string -> option exn;
  commit : option exn;
  conn_close : option exn
}.

(** The arguments of [remote_execute_sql] that the function reads; [cache]
    is [None] for [False].  [credentials], [cache_name] and the keyword
    arguments are only handed on to collaborators. *)
Record Args : Type := {
  sql_query : sql_arg;
  query_type : string;
  table : string;
  data : data_arg;
  connection : string;
  engine : string;
  cache : option string;
  verbose : bool;
  autofill_nan : bool
}.

(** ** Traces with exceptions *)

Definition M (A : Type) : Type := (list event * (exn + A))%type.

Definition ret {A} (a : A) : M A := ([], inr a).
Definition raise {A} (e : exn) : M A := ([], inl e).
Definition emit (ev : event) : M unit := ([ev], inr tt).

Definition bind {A B} (m : M A) (k : A -> M B) : M B :=
  match m with
  | (t1, inl e) => (t1, inl e)
  | (t1, inr a) => let '(t2, r) := k a in ((t1 ++ t2)%list, r)
  end.

Notation "x <- m ;; k" := (bind m (fun x => k))
  (at level 61, m at next level, right associativity).
Notation "m ;; k" := (bind m (fun _ => k))
  (at level 61, right associativity).

(** A collaborator call: the event, then its outcome. *)
Definition call (ev : event) (outcome : option exn) : M unit :=
  emit ev ;; match outcome with Some e => raise e | None => ret tt end.

Definition call_val {A} (ev : event) (outcome : exn + A) : M A :=
  emit ev ;; match outcome with inl e => raise e | inr a => ret a end.

Definition of_sum {A} (r : exn + A) : M A :=
  match r with inl e => raise e | inr a => ret a end.

Definition trace {A} (m : M A) : list event := fst m.
Definition outcome {A} (m : M A) : exn + A := snd m.

(** ** The function, block by block *)

Definition all_query_types : list string :=
  ["SELECT"; "INSERT"; "DELETE"; "COPY"; "UNLOAD"; "UPDATE"; "CREATE"; "GRANT"].

(** [repr] of a list of plain strings. *)
Definition py_repr_list (xs : list string) : string :=
  "[" ++ join ", " (map (fun x => "'" ++ x ++ "'") xs) ++ "]".

Definition allowed_queries : string :=
  "Your query_type value is not correct, allowed values are "
  ++ join ", " all_query_types.

Definition msg_table_select : string :=
  "Argument table does not match with SQL statement".
Definition msg_table_write : string :=
  "Table does not match with SQL query".
Definition msg_unknown : string :=
  "Unknown query_type, should be as: " ++ py_repr_list all_query_types.
Definition msg_file : string :=
  "Could not read your SQL file properly. Please make sure your file is saved or check your path.".

Definition nonempty (s : string) : bool := negb (s =? EmptyString).

(** Lines 99-122: the SQL type, and [data] (rebound at line 108). *)
Definition classify (sql_query : sql_arg) (query_type : string) (data : data_arg)
  : exn + (string * data_arg) :=
  if nonempty query_type then inr (query_type, data)
  else match data with
       | DFrame _ => inr ("INSERT", data)
       | DDict =>
           match sql_query with
           | QFrame df => inr ("INSERT", DFrame df)
           | QStr q =>
               if py_in "UNLOAD " (upper q) then inr ("UNLOAD", data)
               else if py_in "COPY " (upper q) then inr ("COPY", data)
               else if py_in "UPDATE " (upper q) then inr ("UPDATE", data)
               else if nonempty q then inr ("SELECT", data)
               else inl (ValueError (allowed_queries ++ ". Got " ++ query_type))
           end
       end.

(** Lines 127-131: a query naming a [.sql] file is replaced by the file's
    text.  On a [DataFrame] the test of line 128 raises: it has no [lower]. *)
Definition process_sql (w : World) (sql_type : string) (sql_query : sql_arg)
  : M sql_arg :=
  if negb (sql_type =? "INSERT") then
    match sql_query with
    | QFrame _ => raise AttributeError
    | QStr q =>
        if nonempty q && py_in ".sql" (lower q) then
          txt <- call_val (EvFileRead q) (f_read w q) ;;
          if nonempty txt then ret (QStr txt) else raise (AssertionError msg_file)
        else ret (QStr q)
    end
  else ret sql_query.

(** [sql_query.upper()]. *)
Definition upper_of (sql_query : sql_arg) : M string :=
  match sql_query with
  | QStr q => ret (upper q)
  | QFrame _ => raise AttributeError
  end.

(** Line 147. *)
Definition extract_table (q : string) : exn + string :=
  match nth_error (split "FROM " (replace_char newline space (upper q))) 1 with
  | None => inl IndexError
  | Some piece => inr (hd EmptyString (split " " piece))
  end.

(** Lines 145-151. *)
Definition set_table (sql_type table : string) (sql_query : sql_arg) : M string :=
  if sql_type =? "SELECT" then
    if table =? EmptyString then
      match sql_query with
      | QStr q => of_sum (extract_table q)
      | QFrame _ => raise AttributeError
      end
    else
      uq <- upper_of sql_query ;;
      if (sql_type =? "SELECT") && py_in (upper table) uq then ret table
      else raise (SyntaxError msg_table_select)
  else ret table.

Definition truthy (cache : option string) : bool :=
  match cache with
  | None => false
  | Some s => nonempty s
  end.

Definition passthrough_types : list string :=
  ["CREATE"; "GRANT"; "DELETE"; "COPY"; "UNLOAD"; "UPDATE"].

(** [cache_time=cache] as handed to [_cache], which is reached only with a
    non-empty string. *)
Definition cache_time (cache : option string) : string :=
  match cache with
  | Some s => s
  | None => EmptyString
  end.

(** Lines 155-184. *)
Definition dispatch (w : World) (a : Args) (sql_type table : string)
  (sql_query : sql_arg) (data : data_arg) : M (option DataFrame) :=
  if upper sql_type =? "SELECT" then
    if truthy (cache a) then
      read <- call_val (EvCache sql_query sql_type (cache_time (cache a)))
                       (cached_read w sql_query) ;;
      ret (Some read)
    else
      call EvConnector (connector w) ;;
      read <- call_val (EvReadSql sql_query) (read_sql w sql_query) ;;
      call EvConnClose (conn_close w) ;;
      ret (Some read)
  else if upper sql_type =? "INSERT" then
    call EvConnector (connector w) ;;
    call (EvInsertData data table (autofill_nan a) (verbose a)) (insert_data w data table) ;;
    call EvConnClose (conn_close w) ;;
    ret None
  else if existsb (String.eqb (upper sql_type)) passthrough_types then
    match sql_query with
    | QFrame _ => raise AttributeError
    | QStr q =>
        if py_in (upper table) (upper q) then
          call EvConnector (connector w) ;;
          call EvCursor (cursor w) ;;
          call (EvExecute q) (execute w q) ;;
          call EvCommit (commit w) ;;
          call EvConnClose (conn_close w) ;;
          ret None
        else raise (ValueError msg_table_write)
    end
  else raise (ValueError msg_unknown).

(** Line 139: [with SSHTunnel(...) as tunnel].  [__exit__] runs once the
    body is left, whether it returned or raised, and an exception of the
    body is raised again after it ([__exit__] answers a false value). *)
Definition with_tunnel {A} (w : World) (connection engine : string) (body : M A)
  : M A :=
  call (EvTunnelEnter connection engine) (tunnel_enter w) ;;
  let '(t, r) := body in
  ((t ++ [EvTunnelExit])%list,
   match tunnel_exit w with
   | Some e => inl e
   | None => r
   end).

(** Lines 140-184: the body of the [with] block. *)
Definition tunnel_block (w : World) (a : Args) (sql_type : string)
  (sql_query : sql_arg) (data : data_arg) : M (option DataFrame) :=
  table <- set_table sql_type (table a) sql_query ;;
  dispatch w a sql_type table sql_query data.

Definition remote_execute_sql (w : World) (a : Args) : M (option DataFrame) :=
  kind <- of_sum (classify (sql_query a) (query_type a) (data a)) ;;
  let '(sql_type, data) := kind in
  sql_query <- process_sql w sql_type (sql_query a) ;;
  call (EvCredentials (connection a)) (get_credentials w) ;;
  with_tunnel w (connection a) (engine a)
    (tunnel_block w a sql_type sql_query data).

(** An insert, whole: no file is read, and the data go to [_insert_data]
    once the connector is open. *)
Definition insert_program (w : World) (a : Args) (d : data_arg)
  : M (option DataFrame) :=
  call (EvCredentials (connection a)) (get_credentials w) ;;
  with_tunnel w (connection a) (engine a)
    (call EvConnector (connector w) ;;
     call (EvInsertData d (table a) (autofill_nan a) (verbose a))
          (insert_data w d (table a)) ;;
     call EvConnClose (conn_close w) ;;
     ret None).

(** ** Operation kinds

    The dispatch of lines 155-181 reads [sql_type.upper()]; this is the kind
    it selects, [None] for the final [else]. *)

Inductive OperationKind : Type :=
| Select | Insert | Delete | Copy | Unload | Update | Create | Grant.

Definition kind_of (sql_type : string) : option OperationKind :=
  let u := upper sql_type in
  if u =? "SELECT" then Some Select
  else if u =? "INSERT" then Some Insert
  else if u =? "CREATE" then Some Create
  else if u =? "GRANT" then Some Grant
  else if u =? "DELETE" then Some Delete
  else if u =? "COPY" then Some Copy
  else if u =? "UNLOAD" then Some Unload
  else if u =? "UPDATE" then Some Update
  else None.

(** The SQL type a call is given, when it is given one. *)
Definition sql_type_of (q : sql_arg) (query_type : string) (d : data_arg)
  : option string :=
  match classify q query_type d with
  | inr (sql_type, _) => Some sql_type
  | inl _ => None
  end.

(** The calls whose table is compared with the SQL text: a [SELECT] with a
    table given (line 148), and the statements of line 172. *)
Definition table_checked (sql_type table : string) : bool :=
  (sql_type =? "SELECT") && nonempty table
  || existsb (String.eqb (upper sql_type)) passthrough_types.

(** The errors of the specification's taxonomy, as the code raises them. *)
Definition is_invalid_query (e : exn) : Prop :=
  e = ValueError (allowed_queries ++ ". Got ").

Definition is_table_mismatch (e : exn) : Prop :=
  e = SyntaxError msg_table_select \/ e = ValueError msg_table_write.

(** ** Reading the trace *)

Definition is_exit (ev : event) : bool :=
  match ev with
  | EvTunnelExit => true
  | _ => false
  end.

Definition count_exits (tr : list event) : nat := List.length (filter is_exit tr).

(** A computation is [quiet] when it neither opens nor closes a tunnel. *)
Definition is_tunnel_event (ev : event) : bool :=
  match ev with
  | EvTunnelEnter _ _ | EvTunnelExit => true
  | _ => false
  end.

Definition quiet_trace (t : list event) : Prop :=
  Forall (fun ev => is_tunnel_event ev = false) t.

Definition quiet {A} (m : M A) : Prop := quiet_trace (trace m).

(** Events that reach the database: a connector, or [_cache] (which opens
    one itself). *)
Definition reaches_backend (ev : event) : bool :=
  match ev with
  | EvConnector | EvCache _ _ _ => true
  | _ => false
  end.

(** Counting the events of one sort in a trace. *)
Definition count_if (p : event -> bool) (tr : list event) : nat :=
  List.length (filter p tr).

Definition is_connector (ev : event) : bool :=
  match ev with
  | EvConnector => true
  | _ => false
  end.

Definition is_conn_close (ev : event) : bool :=
  match ev with
  | EvConnClose => true
  | _ => false
  end.

(** The types that lines 102-118 can give when [query_type] is empty. *)
Definition inspected_types : list string :=
  ["INSERT"; "UNLOAD"; "COPY"; "UPDATE"; "SELECT"].

(** ** The specification's wording, for comparison *)

(** A text holds [sub]: it is some prefix, then [sub], then some suffix. *)
Definition occurs (sub s : string) : Prop :=
  exists pre post, s = pre ++ sub ++ post.

(** A text holds [kw] written in some case of its letters. *)
Definition occurs_any_case (kw q : string) : Prop :=
  exists pre s post, q = pre ++ s ++ post /\ upper s = kw.

(** ASCII text, on which [upper] and [lower] are [str.upper] and
    [str.lower]. *)
Definition ascii_char (c : ascii) : bool := (nat_of_ascii c <? 128)%nat.

Fixpoint ascii_text (s : string) : bool :=
  match s with
  | EmptyString => true
  | String c s' => ascii_char c && ascii_text s'
  end.

(** Table extraction: the token that follows the first [FROM ] and ends
    at the next space. *)
Definition normalised (q : string) : string :=
  replace_char newline space (upper q).

Definition spec_table (q : string) : option string :=
  option_map (before " ") (after_first "FROM " (normalised q)).

(** Classification of a [.sql] path by the file's text, read first. *)
Definition spec_classify_file (w : World) (path query_type : string) (data : data_arg)
  : exn + (string * data_arg) :=
  match f_read w path with
  | inl e => inl e
  | inr txt => classify (QStr txt) query_type data
  end.

Definition ends_with (suffix s : string) : Prop :=
  exists pre, s = pre ++ suffix.

(** ** Sample calls *)

(** A backend on which every collaborator answers; [.sql] files hold [txt]. *)
Definition quiet_world (txt : string) : World := {|
  f_read := fun _ => inr txt;
  get_credentials := None;
  tunnel_enter := None;
  tunnel_exit := None;
  connector := None;
  read_sql := fun _ => inr [["1"]];
  cached_read := fun _ => inr [["1"]];
  insert_data := fun _ _ => None;
  cursor := None;
  execute := fun _ => None;
  commit := None;
  conn_close := None
|}.

(** The same backend, refusing every statement. *)
Definition failing_backend (txt : string) : World := {|
  f_read := fun _ => inr txt;
  get_credentials := None;
  tunnel_enter := None;
  tunnel_exit := None;
  connector := None;
  read_sql := fun _ => inl (BackendError "permission denied");
  cached_read := fun _ => inl (BackendError "permission denied");
  insert_data := fun _ _ => Some (BackendError "permission denied");
  cursor := None;
  execute := fun _ => Some (BackendError "permission denied");
  commit := None;
  conn_close := None
|}.

Definition call_with (q : sql_arg) (qt t : string) (d : data_arg) : Args := {|
  sql_query := q;
  query_type := qt;
  table := t;
  data := d;
  connection := "direct";
  engine := "default";
  cache := None;
  verbose := true;
  autofill_nan := true
|}.

(** * src/pycof/format.py

    The formatting helpers, on integer arguments: a [float] argument is
    outside this development.  [str] of an integer is its decimal numeral,
    with a minus sign when negative. *)

Module Fmt.

Inductive error : Type :=
| IndexError
| OverflowError
| TypeError
| ValueError
| OtherError (msg : string).

(** The values that reach these functions. *)
Inductive pyval : Type :=
| PNone
| PBool (b : bool)
| PInt (z : Z)
| PStr (s : string).

(** The decimal numeral of an integer. *)
Definition str_of_int (z : Z) : string := NilZero.string_of_int (Z.to_int z).

(** [sys.int_max_str_digits], 4300 by default in CPython 3.11: [str] of
    an [int] with more digits raises [ValueError]. *)
Definition int_max_str_digits : Z := 4300%Z.
Definition str_limit : Z := (10 ^ int_max_str_digits)%Z.

(** [str(z)] for an [int]. *)
Definition py_str_int (z : Z) : error + string :=
  if (str_limit <=? Z.abs z)%Z then inl ValueError else inr (str_of_int z).

(** [str(value)]. *)
Definition py_str (v : pyval) : error + string :=
  match v with
  | PNone => inr "None"
  | PBool true => inr "True"
  | PBool false => inr "False"
  | PInt z => py_str_int z
  | PStr s => inr s
  end.

(** Lines 270-287. *)
Definition str2bool (value : pyval) : error + bool :=
  match py_str value with
  | inl e => inl e
  | inr s => inr (existsb (String.eqb (lower s)) ["yes"; "y"; "true"; "t"; "1"])
  end.

(** Lines 103-119, for an [int]. *)
Definition add_zero (nb : Z) : error + string :=
  if (nb <? 10)%Z then
    match py_str_int nb with
    | inl e => inl e
    | inr s => inr ("0" ++ s)
    end
  else py_str_int nb.

(** The value of a decimal numeral, leading zeros allowed. *)
Definition decimal_value (s : string) : option Z :=
  option_map Z.of_int (NilZero.int_of_string s).

(** ** [group] *)

Fixpoint take (n : nat) (s : string) : string :=
  match n, s with
  | O, _ => EmptyString
  | S _, EmptyString => EmptyString
  | S k, String c s' => String c (take k s')
  end.

(** [s[-3:]], [s[:-3]] and [s[-1]]. *)
Definition last3 (s : string) : string := drop (String.length s - 3) s.
Definition chop3 (s : string) : string := take (String.length s - 3) s.

Fixpoint last_char (s : string) : option ascii :=
  match s with
  | EmptyString => None
  | String c EmptyString => Some c
  | String _ s' => last_char s'
  end.

Definition is_digit (c : ascii) : bool :=
  let n := nat_of_ascii c in ((48 <=? n) && (n <=? 57))%nat.

(** [s and s[-1].isdigit()]. *)
Definition ends_in_digit (s : string) : bool :=
  match last_char s with
  | Some c => is_digit c
  | None => false
  end.

(** The loop of lines 155-157; every turn shortens [s], so [fuel] at least
    the length of [s] lets it run to its end. *)
Fixpoint group_loop (fuel : nat) (s : string) (groups : list string)
  : string * list string :=
  match fuel with
  | O => (s, groups)
  | S k =>
      if ends_in_digit s
      then group_loop k (chop3 s) (groups ++ [last3 s])%list
      else (s, groups)
  end.

(** An [int] at or beyond this bound cannot be made a [float]:
    [math.isnan] raises on it. *)
Definition float_limit : Z := (2 ^ 1024 - 2 ^ 970)%Z.

(** [round(nb, digits)] of an [int]: itself when [digits] is not negative,
    else the nearest multiple of the power of ten, ties to the even one. *)
Definition round_int (nb digits : Z) : Z :=
  if (0 <=? digits)%Z then nb
  else
    let p := (10 ^ (- digits))%Z in
    let q := (nb / p)%Z in
    let r := (nb mod p)%Z in
    if (p <? 2 * r)%Z || ((2 * r =? p)%Z && Z.odd q)
    then ((q + 1) * p)%Z
    else (q * p)%Z.

(** Lines 125-158, for an [int].  Past the test of line 144 the integer
    is within [float] range, far below the bound of [str], so its numeral
    is taken directly. *)
Definition group (nb digits : Z) (unit : string) : error + string :=
  if (float_limit <=? Z.abs nb)%Z then inl OverflowError
  else if (nb =? 0)%Z then inr "-"
  else
    let s := str_of_int (round_int nb digits) in
    let dig :=
      if (0 <? digits)%Z then
        match nth_error (split "." (str_of_int nb)) 1 with
        | None => inl IndexError
        | Some frac => inr ("." ++ take (Z.to_nat digits) frac)
        end
      else inr EmptyString in
    match dig with
    | inl e => inl e
    | inr dig =>
        let '(s', groups) := group_loop (String.length s) s [] in
        inr (s' ++ join "," (rev groups) ++ dig ++ unit)
    end.

(** The text with its commas taken out. *)
Fixpoint strip_commas (s : string) : string :=
  match s with
  | EmptyString => EmptyString
  | String c s' =>
      if Ascii.eqb c ","%char then strip_commas s' else String c (strip_commas s')
  end.

Fixpoint concat_str (xs : list string) : string :=
  match xs with
  | [] => EmptyString
  | x :: rest => x ++ concat_str rest
  end.

Fixpoint all_chars (p : ascii -> bool) (s : string) : bool :=
  match s with
  | EmptyString => true
  | String c s' => p c && all_chars p s'
  end.

(** The characters of the numeral of an integer. *)
Definition numeral_char (c : ascii) : bool := is_digit c || Ascii.eqb c "-"%char.

Definition not_comma (c : ascii) : bool := negb (Ascii.eqb c ","%char).

(** ** [week_sunday]

    A [datetime.date] is its proleptic Gregorian ordinal, from 1 for
    0001-01-01 (a Monday) to [max_ordinal] for 9999-12-31. *)

Definition max_ordinal : Z := 3652059%Z.

Definition valid_date (d : Z) : Prop := (1 <= d <= max_ordinal)%Z.

(** [date.weekday()]: Monday is 0, Sunday 6. *)
Definition weekday (d : Z) : Z := ((d + 6) mod 7)%Z.

(** [date - datetime.timedelta(n)]. *)
Definition date_minus_days (d n : Z) : error + Z :=
  let o := (d - n)%Z in
  if (0 <? o)%Z && (o <=? max_ordinal)%Z then inr o else inl OverflowError.

Inductive week_answer : Type :=
| ADate (d : Z)
| AWeek (n : Z).

(** Lines 190-218.  [today] is [datetime.date.today()] and [iso_week d] is
    [d.isocalendar()[1]]. *)
Definition week_sunday (today : Z) (iso_week : Z -> Z)
  (date : option Z) (return_week_nb : bool) : error + week_answer :=
  let date := match date with
              | None => today
              | Some d => d
              end in
  let idx := ((weekday date + 1) mod 7)%Z in
  match date_minus_days date idx with
  | inl e => inl e
  | inr last_sunday =>
      if return_week_nb then inr (AWeek (iso_week last_sunday + 1)%Z)
      else inr (ADate last_sunday)
  end.

(** ** [display_name] *)

(** What the system answers: [sys.platform], the display name of the
    Windows account, the GECOS field of the password entry, and
    [getpass.getuser()]. *)
Record NameWorld : Type := {
  platform : string;
  win_display_name : error + string;
  pwd_gecos : error + string;
  getuser : error + string
}.

(** The full name as the platform gives it (lines 237-247 and 254-256). *)
Definition system_name (w : NameWorld) : error + string :=
  if existsb (String.eqb (platform w)) ["win32"] then win_display_name w
  else pwd_gecos w.

(** Lines 248-253 and 257-262. *)
Definition pick_name (display user : string) : error + string :=
  if display =? "first" then
    match nth_error (split ", " user) 1 with
    | Some x => inr x
    | None => inl IndexError
    end
  else if display =? "last" then
    match nth_error (split ", " user) 0 with
    | Some x => inr x
    | None => inl IndexError
    end
  else inr user.

(** Lines 223-264: any exception of the lookup or of the split is caught
    and the login name is returned in its place. *)
Definition display_name (w : NameWorld) (display : string) : error + string :=
  let attempt :=
    if existsb (String.eqb (platform w)) ["win32"] then
      match win_display_name w with
      | inl e => inl e
      | inr user => pick_name display user
      end
    else
      match pwd_gecos w with
      | inl e => inl e
      | inr user => pick_name display user
      end in
  match attempt with
  | inl _ => getuser w
  | inr name => inr name
  end.

(** ** [send_email] *)

Inductive mail_event : Type :=
| MimeAsString (headers : list (string * pyval)) (body mail_type : string)
| SmtpOpen (connection : string)
| SmtpStartTLS
| SmtpLogin (user password : pyval)
| SmtpSendmail (sender : pyval) (recipients : list string) (text : string)
| SmtpQuit.

(** [config] is the dictionary of [_get_config(credentials)], read with
    [config.get]; the other fields are the answers of the MIME and SMTP
    libraries. *)
Record MailWorld : Type := {
  config : string -> pyval;
  as_string : list (string * pyval) -> string -> string -> error + string;
  smtp_open : string -> option error;
  starttls : option error;
  login : pyval -> pyval -> option error;
  sendmail : pyval -> list string -> string -> option error;
  quit : option error
}.

Definition Mail (A : Type) : Type := (list mail_event * (error + A))%type.

Definition mail_ret {A} (a : A) : Mail A := ([], inr a).
Definition mail_raise {A} (e : error) : Mail A := ([], inl e).

Definition mail_bind {A B} (m : Mail A) (k : A -> Mail B) : Mail B :=
  match m with
  | (t1, inl e) => (t1, inl e)
  | (t1, inr a) => let '(t2, r) := k a in ((t1 ++ t2)%list, r)
  end.

Definition mail_call (ev : mail_event) (answer : option error) : Mail unit :=
  ([ev], match answer with
         | Some e => inl e
         | None => inr tt
         end).

Definition mail_call_val {A} (ev : mail_event) (answer : error + A) : Mail A :=
  ([ev], answer).

Definition mail_trace {A} (m : Mail A) : list mail_event := fst m.
Definition mail_outcome {A} (m : Mail A) : error + A := snd m.

(** [host + ':' + port] of line 90: only a [str] can be added to. *)
Definition smtp_address (host : pyval) (port : string) : error + string :=
  match host with
  | PStr h => inr (h ++ ":" ++ port)
  | _ => inl TypeError
  end.

(** Lines 86-89: the port as a string, ['587'] when [str] raises. *)
Definition smtp_port (v : pyval) : string :=
  match py_str v with
  | inr s => s
  | inl _ => "587"
  end.

(** Lines 73-97, once [_get_config] has answered. *)
Definition send_email (w : MailWorld) (to subject body cc : string) : Mail unit :=
  let headers :=
    [("From", config w "EMAIL_SENDER"); ("To", PStr to);
     ("Cc", PStr (if cc =? EmptyString then EmptyString else cc));
     ("Subject", PStr subject)] in
  let mail_type := if py_in "</" body then "html" else "plain" in
  mail_bind (mail_call_val (MimeAsString headers body mail_type)
                           (as_string w headers body mail_type)) (fun text =>
  let port := smtp_port (config w "EMAIL_PORT") in
  match smtp_address (config w "EMAIL_SMTP") port with
  | inl e => mail_raise e
  | inr connection =>
      mail_bind (mail_call (SmtpOpen connection) (smtp_open w connection)) (fun _ =>
      mail_bind (mail_call SmtpStartTLS (starttls w)) (fun _ =>
      mail_bind (mail_call (SmtpLogin (config w "EMAIL_USER") (config w "EMAIL_PASSWORD"))
                           (login w (config w "EMAIL_USER") (config w "EMAIL_PASSWORD")))
                (fun _ =>
      mail_bind (mail_call (SmtpSendmail (config w "EMAIL_USER") [to; EmptyString; cc] text)
                           (sendmail w (config w "EMAIL_USER") [to; EmptyString; cc] text))
                (fun _ =>
      mail_call SmtpQuit (quit w)))))
  end).

(** A mail server on which every call returns, with the given
    configuration. *)
Definition quiet_mail (cfg : string -> pyval) : MailWorld := {|
  config := cfg;
  as_string := fun _ body _ => inr body;
  smtp_open := fun _ => None;
  starttls := None;
  login := fun _ _ => None;
  sendmail := fun _ _ _ => None;
  quit := None
|}.

(** The same server, refusing the login. *)
Definition refusing_mail (cfg : string -> pyval) : MailWorld := {|
  config := cfg;
  as_string := fun _ body _ => inr body;
  smtp_open := fun _ => None;
  starttls := None;
  login := fun _ _ => Some (OtherError "authentication failed");
  sendmail := fun _ _ _ => None;
  quit := None
|}.

(** A configuration with the keys of the docstring, and one without port. *)
Definition gmail_config (key : string) : pyval :=
  if key =? "EMAIL_USER" then PStr "me@domain.com"
  else if key =? "EMAIL_SENDER" then PStr "Me"
  else if key =? "EMAIL_PASSWORD" then PStr "secret"
  else if key =? "EMAIL_SMTP" then PStr "smtp.gmail.com"
  else if key =? "EMAIL_PORT" then PStr "587"
  else PNone.

Definition portless_config (key : string) : pyval :=
  if key =? "EMAIL_PORT" then PNone else gmail_config key.

Definition is_smtp_event (ev : mail_event) : bool :=
  match ev with
  | MimeAsString _ _ _ => false
  | _ => true
  end.

End Fmt.

(** * Properties *)

(** ** Strings *)

Example upper_ex : upper "Select * from t1" = "SELECT * FROM T1".
Proof. reflexivity. Qed.

Example in_ex : py_in "COPY " (upper "copy t from 's3://b/k'") = true.
Proof. reflexivity. Qed.

Example split_ex :
  split "FROM " "SELECT A FROM T WHERE X IN (SELECT B FROM U)"
  = ["SELECT A "; "T WHERE X IN (SELECT B "; "U)"].
Proof. reflexivity. Qed.

Example split_overlap_ex : split "aa" "aaaXaa" = [EmptyString; "aX"; EmptyString].
Proof. reflexivity. Qed.

Example split_absent_ex : split "FROM " "SELECT 1" = ["SELECT 1"].
Proof. reflexivity. Qed.

Section StringFacts.

Lemma map_chars_app (f : ascii -> ascii) (a b : string) :
  map_chars f (a ++ b) = map_chars f a ++ map_chars f b.
Proof.
  induction a as [|c a IH]; simpl; [reflexivity | now rewrite IH].
Qed.

Lemma upper_app (a b : string) : upper (a ++ b) = upper a ++ upper b.
Proof. apply map_chars_app. Qed.

Lemma prefix_app (a b : string) : prefix a (a ++ b) = true.
Proof.
  induction a as [|c a IH]; simpl.
  - now destruct b.
  - destruct (ascii_dec c c) as [_|ne]; [exact IH | now elim ne].
Qed.

Lemma prefix_split (a s : string) :
  prefix a s = true -> s = a ++ drop (String.length a) s.
Proof.
  revert s; induction a as [|c a IH]; intros s H; simpl.
  - reflexivity.
  - destruct s as [|d s]; simpl in H; [discriminate|].
    destruct (ascii_dec c d) as [->|]; [|discriminate].
    simpl. now rewrite <- IH.
Qed.

Lemma prefix_empty (s : string) : prefix EmptyString s = true.
Proof. now destruct s. Qed.

Lemma py_in_empty (s : string) : py_in EmptyString s = true.
Proof. destruct s; reflexivity. Qed.

Lemma py_in_prefix (sub s : string) : prefix sub s = true -> py_in sub s = true.
Proof.
  destruct s as [|c s]; simpl; intros H; [exact H | now rewrite H].
Qed.

(** A text that holds [sub] somewhere answers [sub in text]. *)
Lemma py_in_app (pre sub post : string) : py_in sub (pre ++ sub ++ post) = true.
Proof.
  induction pre as [|c pre IH].
  - cbn [append]. apply py_in_prefix, prefix_app.
  - simpl. rewrite IH. apply orb_true_r.
Qed.

(** And conversely. *)
Lemma py_in_inv (sub s : string) :
  py_in sub s = true -> exists pre post, s = pre ++ sub ++ post.
Proof.
  induction s as [|c s IH]; cbn [py_in]; intros H.
  - exists EmptyString, EmptyString. destruct sub; [reflexivity | discriminate H].
  - apply orb_true_iff in H as [H|H].
    + exists EmptyString, (drop (String.length sub) (String c s)).
      now apply prefix_split in H.
    + destruct (IH H) as (pre & post & ->).
      now exists (String c pre), post.
Qed.

Lemma nonempty_true (s : string) : nonempty s = true <-> s <> EmptyString.
Proof.
  unfold nonempty. rewrite negb_true_iff. apply String.eqb_neq.
Qed.

Lemma nonempty_false (s : string) : nonempty s = false <-> s = EmptyString.
Proof.
  unfold nonempty. rewrite negb_false_iff. apply String.eqb_eq.
Qed.

(** Passing over a separator just matched. *)
Lemma split_go_skip (sep x r : string) :
  split_go sep (String.length x) (x ++ r) = split_go sep 0 r.
Proof.
  induction x as [|c x IH]; simpl; [reflexivity | exact IH].
Qed.

(** [split] cuts at the first occurrence and goes on with what follows. *)
Lemma split_unfold (sep s : string) :
  sep <> EmptyString ->
  split sep s
  = before sep s :: match after_first sep s with
                    | None => []
                    | Some r => split sep r
                    end.
Proof.
  intros Hsep. unfold split.
  induction s as [|c s IH]; [reflexivity|].
  cbn [split_go before after_first].
  destruct (prefix sep (String c s)) eqn:Hp.
  - f_equal.
    destruct sep as [|d sep]; [now elim Hsep|].
    apply prefix_split in Hp. cbn [String.length drop] in Hp |- *.
    cbn in Hp. injection Hp as -> Hs.
    replace (S (String.length sep) - 1) with (String.length sep) by lia.
    rewrite Hs at 1. apply split_go_skip.
  - rewrite IH. reflexivity.
Qed.

Lemma split_head (sep s : string) :
  sep <> EmptyString -> hd EmptyString (split sep s) = before sep s.
Proof. intros H. now rewrite split_unfold. Qed.

Lemma split_second (sep s : string) :
  sep <> EmptyString ->
  nth_error (split sep s) 1 = option_map (before sep) (after_first sep s).
Proof.
  intros H. rewrite split_unfold by assumption.
  destruct (after_first sep s) as [r|]; [|reflexivity].
  now rewrite (split_unfold sep r).
Qed.

End StringFacts.

(** ** Traces *)

Section TraceFacts.

Context {A B : Type}.

Lemma bind_trace (m : M A) (k : A -> M B) :
  trace (bind m k)
  = (trace m ++ match outcome m with
                | inl _ => []
                | inr a => trace (k a)
                end)%list.
Proof.
  destruct m as [t [e|a]]; cbn.
  - now rewrite app_nil_r.
  - now destruct (k a).
Qed.

Lemma bind_outcome (m : M A) (k : A -> M B) :
  outcome (bind m k)
  = match outcome m with
    | inl e => inl e
    | inr a => outcome (k a)
    end.
Proof.
  destruct m as [t [e|a]]; cbn; [reflexivity | now destruct (k a)].
Qed.

Lemma bind_returns (m : M A) (k : A -> M B) (t : list event) (a : A) :
  m = (t, inr a) -> bind m k = ((t ++ trace (k a))%list, outcome (k a)).
Proof. intros ->. cbn. now destruct (k a). Qed.

Lemma bind_raises (m : M A) (k : A -> M B) (t : list event) (e : exn) :
  m = (t, inl e) -> bind m k = (t, inl e).
Proof. now intros ->. Qed.

End TraceFacts.

Lemma call_trace (ev : event) (o : option exn) : trace (call ev o) = [ev].
Proof. now destruct o. Qed.

Lemma call_val_trace {A} (ev : event) (o : exn + A) : trace (call_val ev o) = [ev].
Proof. now destruct o. Qed.

Lemma bind_ret_l {A B} (a : A) (k : A -> M B) : bind (ret a) k = k a.
Proof. unfold ret. cbn. now destruct (k a). Qed.

Lemma count_exits_app (t u : list event) :
  count_exits (t ++ u) = count_exits t + count_exits u.
Proof. unfold count_exits. now rewrite filter_app, length_app. Qed.

Lemma quiet_trace_exits (t : list event) : quiet_trace t -> count_exits t = 0.
Proof.
  induction 1 as [|ev t Hev _ IH]; [reflexivity|].
  unfold count_exits in *. cbn [filter].
  destruct ev; cbn in Hev |- *; try discriminate; exact IH.
Qed.

Lemma quiet_trace_no_enter (t : list event) (c e : string) :
  quiet_trace t -> ~ In (EvTunnelEnter c e) t.
Proof.
  intros H Hin. unfold quiet_trace in H. rewrite Forall_forall in H.
  specialize (H _ Hin). discriminate.
Qed.

Lemma quiet_ret {A} (a : A) : quiet (ret a).
Proof. constructor. Qed.

Lemma quiet_raise {A} (e : exn) : quiet (@raise A e).
Proof. constructor. Qed.

Lemma quiet_of_sum {A} (r : exn + A) : quiet (of_sum r).
Proof. destruct r; constructor. Qed.

Lemma quiet_call (ev : event) (o : option exn) :
  is_tunnel_event ev = false -> quiet (call ev o).
Proof. intros H. destruct o; repeat constructor; exact H. Qed.

Lemma quiet_call_val {A} (ev : event) (o : exn + A) :
  is_tunnel_event ev = false -> quiet (call_val ev o).
Proof. intros H. destruct o; repeat constructor; exact H. Qed.

Lemma quiet_bind {A B} (m : M A) (k : A -> M B) :
  quiet m -> (forall a, quiet (k a)) -> quiet (bind m k).
Proof.
  unfold quiet. intros Hm Hk. rewrite bind_trace.
  apply Forall_app. split; [exact Hm|].
  destruct (outcome m); [constructor | apply Hk].
Qed.

Create HintDb quiet.
#[local] Hint Resolve quiet_ret quiet_raise quiet_of_sum : quiet.

Ltac quiet_step :=
  lazymatch goal with
  | |- quiet (bind _ _) => apply quiet_bind; [|intros]
  | |- quiet (call _ _) => apply quiet_call; reflexivity
  | |- quiet (call_val _ _) => apply quiet_call_val; reflexivity
  | |- quiet (if ?b then _ else _) => destruct b
  | |- quiet (match ?x with _ => _ end) => destruct x
  | |- quiet _ => solve [auto with quiet]
  end.

Lemma quiet_process_sql (w : World) (sql_type : string) (q : sql_arg) :
  quiet (process_sql w sql_type q).
Proof. unfold process_sql. repeat quiet_step. Qed.

Lemma quiet_set_table (sql_type table : string) (q : sql_arg) :
  quiet (set_table sql_type table q).
Proof. unfold set_table, upper_of. repeat quiet_step. Qed.

Lemma quiet_dispatch (w : World) (a : Args) (sql_type table : string)
  (q : sql_arg) (d : data_arg) :
  quiet (dispatch w a sql_type table q d).
Proof. unfold dispatch. repeat quiet_step. Qed.

(** The scoped block: one [__enter__], the body, one [__exit__]. *)
Lemma with_tunnel_entered {A} (w : World) (c e : string) (body : M A) :
  tunnel_enter w = None ->
  with_tunnel w c e body
  = (EvTunnelEnter c e :: trace body ++ [EvTunnelExit],
     match tunnel_exit w with
     | Some x => inl x
     | None => outcome body
     end)%list.
Proof.
  intros H. unfold with_tunnel, call. rewrite H.
  destruct body as [t r]. reflexivity.
Qed.

Lemma with_tunnel_refused {A} (w : World) (c e : string) (body : M A) (x : exn) :
  tunnel_enter w = Some x ->
  with_tunnel w c e body = ([EvTunnelEnter c e], inl x).
Proof.
  intros H. unfold with_tunnel, call. rewrite H. reflexivity.
Qed.

(** ** The tunnel scope *)

(** The call, stage by stage: classification, the query file, the
    credentials, then the scoped block. *)
Lemma run_unfold (w : World) (a : Args) :
  remote_execute_sql w a
  = match classify (sql_query a) (query_type a) (data a) with
    | inl e => ([], inl e)
    | inr (sql_type, d) =>
        match process_sql w sql_type (sql_query a) with
        | (t0, inl e) => (t0, inl e)
        | (t0, inr q) =>
            match get_credentials w with
            | Some e => (t0 ++ [EvCredentials (connection a)], inl e)
            | None =>
                match tunnel_enter w with
                | Some e =>
                    (t0 ++ [EvCredentials (connection a);
                            EvTunnelEnter (connection a) (engine a)], inl e)
                | None =>
                    (t0 ++ EvCredentials (connection a)
                        :: EvTunnelEnter (connection a) (engine a)
                        :: trace (tunnel_block w a sql_type q d) ++ [EvTunnelExit],
                     match tunnel_exit w with
                     | Some x => inl x
                     | None => outcome (tunnel_block w a sql_type q d)
                     end)
                end
            end
        end
    end%list.
Proof.
  unfold remote_execute_sql.
  destruct (classify (sql_query a) (query_type a) (data a)) as [e|[sql_type d]];
    [reflexivity|].
  cbn [of_sum]. unfold ret at 1. cbn [bind app].
  destruct (process_sql w sql_type (sql_query a)) as [t0 [e|q]]; [reflexivity|].
  cbn [bind].
  destruct (get_credentials w) as [e|].
  { cbn. reflexivity. }
  destruct (tunnel_enter w) as [e|] eqn:He.
  - rewrite (with_tunnel_refused _ _ _ _ e He). reflexivity.
  - rewrite (with_tunnel_entered _ _ _ _ He). reflexivity.
Qed.

Lemma quiet_tunnel_block (w : World) (a : Args) (sql_type : string)
  (q : sql_arg) (d : data_arg) :
  quiet (tunnel_block w a sql_type q d).
Proof.
  apply quiet_bind; [apply quiet_set_table | intros; apply quiet_dispatch].
Qed.

(** Everything before and inside the scoped block is quiet, so the trace of
    a call is a quiet prefix, then possibly the tunnel's own events. *)
Lemma run_trace (w : World) (a : Args) :
  exists pre inner,
    quiet_trace pre /\ quiet_trace inner /\
    (trace (remote_execute_sql w a) = pre
     \/ (exists x, tunnel_enter w = Some x) /\
        trace (remote_execute_sql w a)
        = (pre ++ [EvTunnelEnter (connection a) (engine a)])%list
     \/ tunnel_enter w = None /\
        trace (remote_execute_sql w a)
        = (pre ++ EvTunnelEnter (connection a) (engine a) :: inner ++ [EvTunnelExit])%list).
Proof.
  rewrite run_unfold.
  destruct (classify (sql_query a) (query_type a) (data a)) as [e|[sql_type d]].
  { exists [], []. split; [constructor|]. split; [constructor|]. now left. }
  pose proof (quiet_process_sql w sql_type (sql_query a)) as Hp.
  destruct (process_sql w sql_type (sql_query a)) as [t0 [e|q]];
    unfold quiet in Hp; cbn [trace fst] in Hp.
  { exists t0, []. split; [exact Hp|]. split; [constructor|]. now left. }
  assert (Hpre : quiet_trace (t0 ++ [EvCredentials (connection a)])).
  { apply Forall_app; split; [exact Hp | repeat constructor]. }
  exists (t0 ++ [EvCredentials (connection a)])%list, (trace (tunnel_block w a sql_type q d)).
  split; [exact Hpre|]. split; [apply quiet_tunnel_block|].
  destruct (get_credentials w) as [e|]; [now left|].
  right. destruct (tunnel_enter w) as [x|].
  - left. split; [now exists x|]. cbn [trace fst]. now rewrite <- app_assoc.
  - right. split; [reflexivity|]. cbn [trace fst]. now rewrite <- app_assoc.
Qed.

(** C1. Whenever a call to [remote_execute_sql] acquires a tunnel session
    ([__enter__] was called and returned), [__exit__] is called exactly once,
    and it is the last thing the call does before it returns or raises,
    whatever happens inside the block. *)
Theorem tunnel_released_exactly_once (w : World) (a : Args) :
  In (EvTunnelEnter (connection a) (engine a)) (trace (remote_execute_sql w a)) ->
  tunnel_enter w = None ->
  count_exits (trace (remote_execute_sql w a)) = 1
  /\ exists before_exit,
       trace (remote_execute_sql w a) = (before_exit ++ [EvTunnelExit])%list
       /\ count_exits before_exit = 0.
Proof.
  intros Hin Hopen.
  destruct (run_trace w a) as (pre & inner & Hpre & Hinner & [H | [[[x Hx] _] | [_ H]]]).
  - rewrite H in Hin. now apply quiet_trace_no_enter in Hin.
  - congruence.
  - rewrite H.
    assert (Hq : count_exits (pre ++ EvTunnelEnter (connection a) (engine a) :: inner) = 0).
    { rewrite count_exits_app. rewrite (quiet_trace_exits pre Hpre).
      change (EvTunnelEnter (connection a) (engine a) :: inner)
        with ([EvTunnelEnter (connection a) (engine a)] ++ inner)%list.
      rewrite count_exits_app, (quiet_trace_exits inner Hinner). reflexivity. }
    split.
    + change (EvTunnelEnter (connection a) (engine a) :: inner ++ [EvTunnelExit])%list
        with ((EvTunnelEnter (connection a) (engine a) :: inner) ++ [EvTunnelExit])%list.
      rewrite app_assoc, count_exits_app, Hq. reflexivity.
    + exists (pre ++ EvTunnelEnter (connection a) (engine a) :: inner)%list.
      split; [|exact Hq].
      now rewrite <- app_assoc.
Qed.

(** A backend that refuses the statement: the tunnel is still released once. *)
Lemma tunnel_released_exactly_once_witness :
  let w := failing_backend EmptyString in
  let a := call_with (QStr "DELETE FROM ORDERS WHERE id=1") "DELETE" "ORDERS" DDict in
  outcome (remote_execute_sql w a) = inl (BackendError "permission denied")
  /\ count_exits (trace (remote_execute_sql w a)) = 1.
Proof.
  intros w a. split; [reflexivity|].
  apply (tunnel_released_exactly_once w a).
  - vm_compute. right. left. reflexivity.
  - reflexivity.
Defined.

(** The work of an insert inside the tunnel. *)
Lemma insert_block (w : World) (a : Args) (q : sql_arg) (d : data_arg) :
  tunnel_block w a "INSERT" q d
  = (call EvConnector (connector w) ;;
     call (EvInsertData d (table a) (autofill_nan a) (verbose a))
          (insert_data w d (table a)) ;;
     call EvConnClose (conn_close w) ;;
     ret None).
Proof.
  unfold tunnel_block. cbn [set_table String.eqb Ascii.eqb Bool.eqb].
  unfold ret at 1. cbn [bind app]. unfold dispatch.
  change (upper "INSERT") with "INSERT".
  cbn [String.eqb Ascii.eqb Bool.eqb].
  now destruct (_ ;; _).
Qed.

Lemma insert_run (w : World) (a : Args) (d : data_arg) :
  classify (sql_query a) (query_type a) (data a) = inr ("INSERT", d) ->
  remote_execute_sql w a = insert_program w a d.
Proof.
  intros Hc. unfold remote_execute_sql, insert_program.
  rewrite Hc. cbn [of_sum]. rewrite bind_ret_l.
  unfold process_sql. cbn [String.eqb Ascii.eqb Bool.eqb negb].
  rewrite bind_ret_l, insert_block. reflexivity.
Qed.

(** The three ways out of the block, on a sample call each: a result, an
    error of the backend, an [IndexError] of line 147. *)
Example release_on_return :
  remote_execute_sql (quiet_world EmptyString)
    (call_with (QStr "SELECT * FROM ORDERS LIMIT 10") EmptyString EmptyString DDict)
  = ([EvCredentials "direct"; EvTunnelEnter "direct" "default"; EvConnector;
      EvReadSql (QStr "SELECT * FROM ORDERS LIMIT 10"); EvConnClose; EvTunnelExit],
     inr (Some [["1"]])).
Proof. reflexivity. Qed.

Example release_on_backend_error :
  remote_execute_sql (failing_backend EmptyString)
    (call_with (QStr "SELECT * FROM ORDERS LIMIT 10") EmptyString EmptyString DDict)
  = ([EvCredentials "direct"; EvTunnelEnter "direct" "default"; EvConnector;
      EvReadSql (QStr "SELECT * FROM ORDERS LIMIT 10"); EvTunnelExit],
     inl (BackendError "permission denied")).
Proof. reflexivity. Qed.

Example release_on_index_error :
  remote_execute_sql (quiet_world EmptyString)
    (call_with (QStr "SELECT 1") EmptyString EmptyString DDict)
  = ([EvCredentials "direct"; EvTunnelEnter "direct" "default"; EvTunnelExit],
     inl IndexError).
Proof. reflexivity. Qed.

(** ** Classification *)

(** C2. With a non-empty [query_type] the SQL type is [query_type] itself,
    whatever the SQL text and the data are: two calls with the same
    [query_type] get the same type.  In particular ["INSERT"] is an insert
    whatever the data, the default (empty) one included. *)
Theorem explicit_query_type_wins (qt : string) :
  qt <> EmptyString ->
  (forall q d, classify q qt d = inr (qt, d))
  /\ (forall q q' d d',
        sql_type_of q qt d = sql_type_of q' qt d')
  /\ (forall q d, classify q "INSERT" d = inr ("INSERT", d))
  /\ kind_of "INSERT" = Some Insert
  /\ (forall w a, query_type a = "INSERT" ->
                  remote_execute_sql w a = insert_program w a (data a)).
Proof.
  intros Hqt.
  assert (H : forall q d, classify q qt d = inr (qt, d)).
  { intros q d. unfold classify.
    apply nonempty_true in Hqt. now rewrite Hqt. }
  split; [exact H|]. split; [|split; [|split]].
  - intros q q' d d'. unfold sql_type_of. now rewrite !H.
  - reflexivity.
  - reflexivity.
  - intros w a Ha. apply insert_run. now rewrite Ha.
Qed.

Lemma explicit_query_type_wins_witness :
  classify (QStr "SELECT * FROM ORDERS") "DELETE" (DFrame [["1"]])
  = inr ("DELETE", DFrame [["1"]]).
Proof.
  apply (explicit_query_type_wins "DELETE"). discriminate.
Defined.

Lemma py_in_occurs (sub s : string) : py_in sub s = true <-> occurs sub s.
Proof.
  split.
  - apply py_in_inv.
  - intros (pre & post & ->). apply py_in_app.
Qed.

Lemma py_in_absent (sub s : string) : py_in sub s = false <-> ~ occurs sub s.
Proof.
  rewrite <- py_in_occurs. destruct (py_in sub s); split; intros H;
    try reflexivity; try discriminate; try (intros H'; discriminate H').
  now elim H.
Qed.

(** A keyword written in any case is found in the upper-cased text. *)
Lemma keyword_any_case (kw q : string) :
  occurs_any_case kw q -> occurs kw (upper q).
Proof.
  intros (pre & s & post & -> & <-).
  exists (upper pre), (upper post). now rewrite !upper_app.
Qed.

(** The statement holds the keyword [UNLOAD] (followed by a bracket, as
    Redshift allows) and is taken for a select. *)
Lemma keyword_needs_trailing_space :
  let q := "UNLOAD('select * from orders') TO 's3://bucket/orders_'" in
  occurs "UNLOAD" (upper q)
  /\ classify (QStr q) EmptyString DDict = inr ("SELECT", DDict)
  /\ kind_of "SELECT" = Some Select.
Proof.
  split; [|split; reflexivity].
  exists EmptyString, "('SELECT * FROM ORDERS') TO 'S3://BUCKET/ORDERS_'".
  reflexivity.
Qed.

(** C3, amended. With an empty [query_type], a payload that is not a
    DataFrame and a non-empty SQL string, the type is found by looking in
    the upper-cased text for the keywords followed by a space, [UNLOAD ],
    [COPY ], [UPDATE ], in this order: the first of them that the text holds
    decides, and the type is [SELECT] when it holds none.  In particular a
    text that holds [UNLOAD ] in any case is an unload. *)
Theorem keyword_inspection_order (q : string) :
  q <> EmptyString ->
  (occurs "UNLOAD " (upper q) ->
   classify (QStr q) EmptyString DDict = inr ("UNLOAD", DDict))
  /\ (~ occurs "UNLOAD " (upper q) -> occurs "COPY " (upper q) ->
      classify (QStr q) EmptyString DDict = inr ("COPY", DDict))
  /\ (~ occurs "UNLOAD " (upper q) -> ~ occurs "COPY " (upper q) ->
      occurs "UPDATE " (upper q) ->
      classify (QStr q) EmptyString DDict = inr ("UPDATE", DDict))
  /\ (~ occurs "UNLOAD " (upper q) -> ~ occurs "COPY " (upper q) ->
      ~ occurs "UPDATE " (upper q) ->
      classify (QStr q) EmptyString DDict = inr ("SELECT", DDict))
  /\ (occurs_any_case "UNLOAD " q ->
      classify (QStr q) EmptyString DDict = inr ("UNLOAD", DDict)
      /\ kind_of "UNLOAD" = Some Unload).
Proof.
  intros Hq. apply nonempty_true in Hq.
  assert (Hunload : occurs "UNLOAD " (upper q) ->
            classify (QStr q) EmptyString DDict = inr ("UNLOAD", DDict)).
  { intros H. apply py_in_occurs in H. unfold classify.
    cbn [nonempty String.eqb negb]. now rewrite H. }
  split; [exact Hunload|]. split; [|split; [|split]].
  - intros H1 H2. apply py_in_absent in H1. apply py_in_occurs in H2.
    unfold classify. cbn [nonempty String.eqb negb]. now rewrite H1, H2.
  - intros H1 H2 H3. apply py_in_absent in H1, H2. apply py_in_occurs in H3.
    unfold classify. cbn [nonempty String.eqb negb]. now rewrite H1, H2, H3.
  - intros H1 H2 H3. apply py_in_absent in H1, H2, H3.
    unfold classify. cbn [nonempty String.eqb negb]. now rewrite H1, H2, H3, Hq.
  - intros H. split; [|reflexivity]. now apply Hunload, keyword_any_case.
Qed.

Lemma keyword_inspection_order_witness :
  classify (QStr "unload ('select * from t') to 's3://b/k'") EmptyString DDict
  = inr ("UNLOAD", DDict).
Proof.
  refine (proj1 (proj2 (proj2 (proj2 (proj2 (keyword_inspection_order _ _)))) _)).
  - discriminate.
  - exists EmptyString, "unload ", "('select * from t') to 's3://b/k'".
    split; reflexivity.
Defined.

Lemma allowed_queries_text :
  allowed_queries ++ ". Got "
  = "Your query_type value is not correct, allowed values are SELECT, INSERT, DELETE, COPY, UNLOAD, UPDATE, CREATE, GRANT. Got ".
Proof. reflexivity. Qed.

(** C8. A call with an empty [query_type], the empty string as query and a
    payload that is not a DataFrame raises the [ValueError] of line 122.  Its
    message is the sentence below, which names SELECT, INSERT, DELETE, COPY,
    UNLOAD, UPDATE, CREATE and GRANT; nothing has been done before it is
    raised, and no kind is assigned. *)
Theorem empty_call_is_invalid_query (w : World) (a : Args) :
  query_type a = EmptyString ->
  sql_query a = QStr EmptyString ->
  data a = DDict ->
  sql_type_of (sql_query a) (query_type a) (data a) = None
  /\ exists msg,
       remote_execute_sql w a = ([], inl (ValueError msg))
       /\ msg = "Your query_type value is not correct, allowed values are SELECT, INSERT, DELETE, COPY, UNLOAD, UPDATE, CREATE, GRANT. Got "
       /\ Forall (fun kind => occurs kind msg)
                 ["SELECT"; "INSERT"; "DELETE"; "COPY"; "UNLOAD"; "UPDATE";
                  "CREATE"; "GRANT"].
Proof.
  intros Hqt Hq Hd.
  split; [now rewrite Hqt, Hq, Hd|].
  exists (allowed_queries ++ ". Got ").
  split; [|split].
  - rewrite run_unfold, Hqt, Hq, Hd. reflexivity.
  - reflexivity.
  - rewrite allowed_queries_text.
    repeat (apply Forall_cons; [apply py_in_occurs; reflexivity|]).
    apply Forall_nil.
Qed.

Lemma empty_call_is_invalid_query_witness :
  exists msg,
    remote_execute_sql (quiet_world EmptyString)
      (call_with (QStr EmptyString) EmptyString "ORDERS" DDict)
    = ([], inl (ValueError msg))
    /\ msg = "Your query_type value is not correct, allowed values are SELECT, INSERT, DELETE, COPY, UNLOAD, UPDATE, CREATE, GRANT. Got "
    /\ Forall (fun kind => occurs kind msg)
              ["SELECT"; "INSERT"; "DELETE"; "COPY"; "UNLOAD"; "UPDATE";
               "CREATE"; "GRANT"].
Proof.
  apply (proj2 (empty_call_is_invalid_query (quiet_world EmptyString)
                  (call_with (QStr EmptyString) EmptyString "ORDERS" DDict)
                  eq_refl eq_refl eq_refl)).
Defined.

(** C10. A DataFrame passed as [sql_query], with an empty [query_type] and
    no DataFrame as [data], makes the call an insert of that DataFrame: it is
    what [_insert_data] receives once the connector is open. *)
Theorem frame_as_query_is_insert (w : World) (a : Args) (df : DataFrame) :
  sql_query a = QFrame df ->
  query_type a = EmptyString ->
  data a = DDict ->
  classify (sql_query a) (query_type a) (data a) = inr ("INSERT", DFrame df)
  /\ kind_of "INSERT" = Some Insert
  /\ remote_execute_sql w a = insert_program w a (DFrame df).
Proof.
  intros Hq Hqt Hd.
  assert (Hc : classify (sql_query a) (query_type a) (data a) = inr ("INSERT", DFrame df)).
  { rewrite Hq, Hqt, Hd. reflexivity. }
  split; [exact Hc|]. split; [reflexivity|].
  now apply insert_run.
Qed.

Lemma frame_as_query_is_insert_witness :
  remote_execute_sql (quiet_world EmptyString)
    (call_with (QFrame [["1"; "a"]; ["2"; "b"]]) EmptyString "ORDERS" DDict)
  = ([EvCredentials "direct"; EvTunnelEnter "direct" "default"; EvConnector;
      EvInsertData (DFrame [["1"; "a"]; ["2"; "b"]]) "ORDERS" true true;
      EvConnClose; EvTunnelExit],
     inr None).
Proof.
  refine (eq_trans
            (proj2 (proj2 (frame_as_query_is_insert (quiet_world EmptyString)
               (call_with (QFrame [["1"; "a"]; ["2"; "b"]]) EmptyString "ORDERS" DDict)
               [["1"; "a"]; ["2"; "b"]] eq_refl eq_refl eq_refl)))
            _).
  reflexivity.
Defined.

(** ** Table validation *)

Lemma passthrough_not_select (sql_type : string) :
  existsb (String.eqb (upper sql_type)) passthrough_types = true ->
  (sql_type =? "SELECT") = false
  /\ (upper sql_type =? "SELECT") = false
  /\ (upper sql_type =? "INSERT") = false.
Proof.
  intros H.
  assert (Hu : (upper sql_type =? "SELECT") = false /\ (upper sql_type =? "INSERT") = false).
  { unfold passthrough_types in H. cbn [existsb] in H.
    repeat (apply orb_true_iff in H as [H|H]); try discriminate;
      apply String.eqb_eq in H; rewrite H; split; reflexivity. }
  split; [|exact Hu].
  destruct (sql_type =? "SELECT") eqn:E; [|reflexivity].
  apply String.eqb_eq in E. subst sql_type. destruct Hu as [Hu _]. discriminate Hu.
Qed.

Lemma table_checked_cases (sql_type table : string) :
  table_checked sql_type table = true ->
  sql_type = "SELECT" /\ table <> EmptyString
  \/ existsb (String.eqb (upper sql_type)) passthrough_types = true.
Proof.
  unfold table_checked. intros H.
  apply orb_true_iff in H as [H|H]; [left | now right].
  apply andb_true_iff in H as [H1 H2].
  split; [now apply String.eqb_eq | now apply nonempty_true].
Qed.

(** A table that is not in the text, case apart, stops the block at once. *)
Lemma block_mismatch (w : World) (a : Args) (sql_type q : string) (d : data_arg) :
  table_checked sql_type (table a) = true ->
  py_in (upper (table a)) (upper q) = false ->
  exists e, is_table_mismatch e
            /\ tunnel_block w a sql_type (QStr q) d = ([], inl e).
Proof.
  intros Hc Hin. unfold tunnel_block.
  destruct (table_checked_cases _ _ Hc) as [[-> Ht] | Hp].
  - exists (SyntaxError msg_table_select). split; [now left|].
    unfold set_table. apply String.eqb_neq in Ht.
    cbn [String.eqb Ascii.eqb Bool.eqb upper_of andb]. rewrite Ht, bind_ret_l, Hin.
    reflexivity.
  - exists (ValueError msg_table_write). split; [now right|].
    destruct (passthrough_not_select _ Hp) as (E1 & E2 & E3).
    unfold set_table. rewrite E1, bind_ret_l.
    unfold dispatch. rewrite E2, E3, Hp, Hin. reflexivity.
Qed.

(** The error is that of line 151 for a select and that of line 179
    otherwise. *)
Lemma block_mismatch_error (w : World) (a : Args) (sql_type q : string) (d : data_arg) :
  table_checked sql_type (table a) = true ->
  ~ occurs (upper (table a)) (upper q) ->
  tunnel_block w a sql_type (QStr q) d
  = ([], inl (if sql_type =? "SELECT"
              then SyntaxError "Argument table does not match with SQL statement"
              else ValueError "Table does not match with SQL query")).
Proof.
  intros Hc Hin. apply py_in_absent in Hin. unfold tunnel_block.
  destruct (table_checked_cases _ _ Hc) as [[-> Ht] | Hp].
  - unfold set_table. apply String.eqb_neq in Ht.
    cbn [String.eqb Ascii.eqb Bool.eqb upper_of andb]. rewrite Ht, bind_ret_l, Hin.
    reflexivity.
  - destruct (passthrough_not_select _ Hp) as (E1 & E2 & E3).
    unfold set_table. rewrite E1, bind_ret_l.
    unfold dispatch. rewrite E2, E3, Hp, Hin. reflexivity.
Qed.

(** A table that is in the text lets the block go to the database. *)
Lemma block_proceeds (w : World) (a : Args) (sql_type q : string) (d : data_arg) :
  table_checked sql_type (table a) = true ->
  py_in (upper (table a)) (upper q) = true ->
  exists ev rest,
    reaches_backend ev = true
    /\ trace (tunnel_block w a sql_type (QStr q) d) = ev :: rest.
Proof.
  intros Hc Hin. unfold tunnel_block.
  destruct (table_checked_cases _ _ Hc) as [[-> Ht] | Hp].
  - unfold set_table. apply String.eqb_neq in Ht.
    cbn [String.eqb Ascii.eqb Bool.eqb upper_of andb]. rewrite Ht, bind_ret_l, Hin, bind_ret_l.
    unfold dispatch. change (upper "SELECT" =? "SELECT") with true. cbv iota.
    destruct (truthy (cache a)).
    + eexists _, _. split; [|rewrite bind_trace, call_val_trace; reflexivity]. reflexivity.
    + eexists _, _. split; [|rewrite bind_trace, call_trace; reflexivity]. reflexivity.
  - destruct (passthrough_not_select _ Hp) as (E1 & E2 & E3).
    unfold set_table. rewrite E1, bind_ret_l.
    unfold dispatch. rewrite E2, E3, Hp, Hin.
    eexists _, _. split; [|rewrite bind_trace, call_trace; reflexivity]. reflexivity.
Qed.

(** The call around the block, once the file, the credentials and the
    tunnel have answered. *)
Lemma run_in_tunnel (w : World) (a : Args) (sql_type : string) (d : data_arg)
  (t0 : list event) (q : sql_arg) :
  classify (sql_query a) (query_type a) (data a) = inr (sql_type, d) ->
  process_sql w sql_type (sql_query a) = (t0, inr q) ->
  get_credentials w = None ->
  tunnel_enter w = None ->
  tunnel_exit w = None ->
  remote_execute_sql w a
  = (t0 ++ EvCredentials (connection a) :: EvTunnelEnter (connection a) (engine a)
        :: trace (tunnel_block w a sql_type q d) ++ [EvTunnelExit],
     outcome (tunnel_block w a sql_type q d))%list.
Proof.
  intros Hc Hp Hcred Hin Hout.
  rewrite run_unfold, Hc, Hp, Hcred, Hin, Hout. reflexivity.
Qed.

Lemma process_sql_trace (w : World) (sql_type : string) (q : sql_arg) :
  Forall (fun ev => reaches_backend ev = false) (trace (process_sql w sql_type q)).
Proof.
  unfold process_sql.
  destruct (negb (sql_type =? "INSERT")); [|constructor].
  destruct q as [s|df]; [|constructor].
  destruct (nonempty s && py_in ".sql" (lower s)); [|constructor].
  rewrite bind_trace, call_val_trace. apply Forall_app. split; [repeat constructor|].
  destruct (outcome _) as [e|txt]; [constructor|].
  destruct (nonempty txt); constructor.
Qed.

(** The table [orders] is not in the text as written, and the statement
    runs all the same. *)
Lemma table_check_ignores_case :
  let q := "DELETE FROM ORDERS WHERE id=1" in
  py_in "orders" q = false
  /\ remote_execute_sql (quiet_world EmptyString) (call_with (QStr q) "DELETE" "orders" DDict)
     = ([EvCredentials "direct"; EvTunnelEnter "direct" "default"; EvConnector;
         EvCursor; EvExecute q; EvCommit; EvConnClose; EvTunnelExit],
        inr None).
Proof. split; reflexivity. Qed.

(** C4, amended. For a call of type [SELECT] with a table given, and for a
    call whose type is one of CREATE, GRANT, DELETE, COPY, UNLOAD, UPDATE (in
    any case), the table is looked for in the SQL text with both upper-cased
    (table and text in ASCII).  When it is not found the call raises
    [SyntaxError] for a select and [ValueError] for the other kinds, having
    opened and released the tunnel and nothing else; when it is found the
    call goes on to the database. *)
Theorem table_checked_against_text (w : World) (a : Args) (sql_type : string)
  (d : data_arg) (t0 : list event) (q : string) :
  classify (sql_query a) (query_type a) (data a) = inr (sql_type, d) ->
  process_sql w sql_type (sql_query a) = (t0, inr (QStr q)) ->
  get_credentials w = None ->
  tunnel_enter w = None ->
  tunnel_exit w = None ->
  table_checked sql_type (table a) = true ->
  ascii_text (table a) = true ->
  ascii_text q = true ->
  (~ occurs (upper (table a)) (upper q) ->
   (sql_type = "SELECT" ->
    remote_execute_sql w a
    = (t0 ++ [EvCredentials (connection a);
              EvTunnelEnter (connection a) (engine a); EvTunnelExit],
       inl (SyntaxError "Argument table does not match with SQL statement"))%list)
   /\ (sql_type <> "SELECT" ->
       remote_execute_sql w a
       = (t0 ++ [EvCredentials (connection a);
                 EvTunnelEnter (connection a) (engine a); EvTunnelExit],
          inl (ValueError "Table does not match with SQL query"))%list))
  /\ (occurs (upper (table a)) (upper q) ->
      exists ev rest,
        reaches_backend ev = true
        /\ trace (remote_execute_sql w a)
           = (t0 ++ EvCredentials (connection a)
                 :: EvTunnelEnter (connection a) (engine a) :: ev :: rest)%list).
Proof.
  intros Hc Hp Hcred Hin Hout Hchk _ _.
  rewrite (run_in_tunnel w a sql_type d t0 (QStr q) Hc Hp Hcred Hin Hout).
  split; intros Htab.
  - rewrite (block_mismatch_error w a sql_type q d Hchk Htab).
    split; intros Hs.
    + rewrite Hs. reflexivity.
    + apply String.eqb_neq in Hs. rewrite Hs. reflexivity.
  - apply py_in_occurs in Htab.
    destruct (block_proceeds w a sql_type q d Hchk Htab) as (ev & rest & Hev & Hb).
    exists ev, (rest ++ [EvTunnelExit])%list. split; [exact Hev|].
    cbn [trace fst]. now rewrite Hb.
Qed.

Lemma table_checked_against_text_witness :
  let q := "DELETE FROM ORDERS WHERE id=1" in
  remote_execute_sql (quiet_world EmptyString) (call_with (QStr q) "DELETE" "CUSTOMERS" DDict)
  = ([EvCredentials "direct"; EvTunnelEnter "direct" "default"; EvTunnelExit],
     inl (ValueError "Table does not match with SQL query")).
Proof.
  intros q.
  apply (proj1 (table_checked_against_text (quiet_world EmptyString)
                  (call_with (QStr q) "DELETE" "CUSTOMERS" DDict)
                  "DELETE" DDict [] q
                  eq_refl eq_refl eq_refl eq_refl eq_refl eq_refl eq_refl eq_refl)).
  - apply py_in_absent. reflexivity.
  - discriminate.
Defined.

(** ** Errors and resources *)

(** The table error of a mismatching [DELETE] comes after the credentials
    were resolved and the tunnel opened. *)
Lemma table_mismatch_after_tunnel :
  remote_execute_sql (quiet_world EmptyString)
    (call_with (QStr "DELETE FROM ORDERS WHERE id=1") "DELETE" "CUSTOMERS" DDict)
  = ([EvCredentials "direct"; EvTunnelEnter "direct" "default"; EvTunnelExit],
     inl (ValueError msg_table_write))
  /\ is_table_mismatch (ValueError msg_table_write).
Proof. split; [reflexivity | now right]. Qed.

Lemma classify_error (q : sql_arg) (query_type : string) (d : data_arg) (e : exn) :
  classify q query_type d = inl e -> is_invalid_query e.
Proof.
  unfold classify, is_invalid_query.
  destruct (nonempty query_type) eqn:Hqt; [discriminate|].
  apply nonempty_false in Hqt. subst query_type.
  destruct d; [|discriminate]. destruct q as [s|df]; [|discriminate].
  repeat (match goal with |- context [if ?b then _ else _] => destruct b end;
          try discriminate).
  intros [= <-]. reflexivity.
Qed.

(** C5, amended. The error of an undeterminable operation is raised before
    anything is done: no file is read, no credentials are resolved, no tunnel
    is opened.  The table error (table and text in ASCII) is raised inside
    the tunnel block: the credentials have been resolved and the tunnel
    opened by then, no connector has been opened and no statement sent, and
    the tunnel is released before the error leaves the call. *)
Theorem classification_errors_and_resources (w : World) (a : Args) :
  (forall e,
      classify (sql_query a) (query_type a) (data a) = inl e ->
      is_invalid_query e /\ remote_execute_sql w a = ([], inl e))
  /\ (forall sql_type d t0 q,
        classify (sql_query a) (query_type a) (data a) = inr (sql_type, d) ->
        process_sql w sql_type (sql_query a) = (t0, inr (QStr q)) ->
        get_credentials w = None ->
        tunnel_enter w = None ->
        tunnel_exit w = None ->
        table_checked sql_type (table a) = true ->
        ascii_text (table a) = true ->
        ascii_text q = true ->
        ~ occurs (upper (table a)) (upper q) ->
        exists e,
          is_table_mismatch e
          /\ outcome (remote_execute_sql w a) = inl e
          /\ trace (remote_execute_sql w a)
             = (t0 ++ [EvCredentials (connection a);
                       EvTunnelEnter (connection a) (engine a); EvTunnelExit])%list
          /\ Forall (fun ev => reaches_backend ev = false)
                    (trace (remote_execute_sql w a))).
Proof.
  split.
  - intros e He. split; [now apply classify_error in He|].
    rewrite run_unfold, He. reflexivity.
  - intros sql_type d t0 q Hc Hp Hcred Hin Hout Hchk _ _ Htab.
    apply py_in_absent in Htab.
    destruct (block_mismatch w a sql_type q d Hchk Htab) as (e & He & Hb).
    exists e. split; [exact He|].
    rewrite (run_in_tunnel w a sql_type d t0 (QStr q) Hc Hp Hcred Hin Hout), Hb.
    split; [reflexivity|]. split; [reflexivity|].
    cbn [trace fst app]. apply Forall_app. split; [|repeat constructor].
    pose proof (process_sql_trace w sql_type (sql_query a)) as Ht.
    now rewrite Hp in Ht.
Qed.

Lemma classification_errors_and_resources_witness :
  let a := call_with (QStr "SELECT * FROM ORDERS") "SELECT" "CUSTOMERS" DDict in
  exists e,
    is_table_mismatch e
    /\ outcome (remote_execute_sql (quiet_world EmptyString) a) = inl e
    /\ trace (remote_execute_sql (quiet_world EmptyString) a)
       = [EvCredentials "direct"; EvTunnelEnter "direct" "default"; EvTunnelExit]
    /\ Forall (fun ev => reaches_backend ev = false)
              (trace (remote_execute_sql (quiet_world EmptyString) a)).
Proof.
  intros a.
  apply (proj2 (classification_errors_and_resources (quiet_world EmptyString) a)
           "SELECT" DDict [] "SELECT * FROM ORDERS");
    try reflexivity.
  apply py_in_absent. reflexivity.
Defined.

(** ** Queries kept in files *)

Lemma lower_app (a b : string) : lower (a ++ b) = lower a ++ lower b.
Proof. apply map_chars_app. Qed.

Lemma sql_path_detected (p : string) :
  ends_with ".sql" p ->
  nonempty p && py_in ".sql" (lower p) = true.
Proof.
  intros [pre ->]. apply andb_true_iff. split.
  - apply nonempty_true. now destruct pre.
  - rewrite lower_app. change (lower ".sql") with (".sql" ++ EmptyString).
    apply py_in_app.
Qed.

(** The path has no keyword in it and is classified as a select; the file
    holds an unload, which is then sent through [pandas.read_sql]. *)
Lemma sql_file_classified_by_path :
  let txt := "UNLOAD ('select * from orders') TO 's3://bucket/orders_'" in
  let p := "reports/monthly.sql" in
  sql_type_of (QStr p) EmptyString DDict = Some "SELECT"
  /\ spec_classify_file (quiet_world txt) p EmptyString DDict = inr ("UNLOAD", DDict)
  /\ remote_execute_sql (quiet_world txt) (call_with (QStr p) EmptyString EmptyString DDict)
     = ([EvFileRead p; EvCredentials "direct"; EvTunnelEnter "direct" "default";
         EvConnector; EvReadSql (QStr txt); EvConnClose; EvTunnelExit],
        inr (Some [["1"]])).
Proof. repeat split; reflexivity. Qed.

(** C6, amended. When [sql_query] is a path ending in [.sql] the SQL type
    is decided first, from [query_type], the data and the path string; then,
    unless the type is [INSERT], the file is read and its text replaces the
    path as the query for table extraction, validation and execution. *)
Theorem sql_file_read_after_classification (w : World) (a : Args)
  (p sql_type txt : string) (d : data_arg) :
  sql_query a = QStr p ->
  ends_with ".sql" p ->
  classify (QStr p) (query_type a) (data a) = inr (sql_type, d) ->
  sql_type <> "INSERT" ->
  f_read w p = inr txt ->
  txt <> EmptyString ->
  remote_execute_sql w a
  = (emit (EvFileRead p) ;;
     call (EvCredentials (connection a)) (get_credentials w) ;;
     with_tunnel w (connection a) (engine a)
       (tunnel_block w a sql_type (QStr txt) d)).
Proof.
  intros Hq Hp Hc Hins Hf Htxt.
  assert (Hproc : process_sql w sql_type (QStr p) = ([EvFileRead p], inr (QStr txt))).
  { unfold process_sql. apply String.eqb_neq in Hins. rewrite Hins. cbn [negb].
    rewrite (sql_path_detected p Hp). unfold call_val. rewrite Hf.
    apply nonempty_true in Htxt. cbn. now rewrite Htxt. }
  unfold remote_execute_sql. rewrite Hq, Hc. cbn [of_sum]. rewrite bind_ret_l.
  rewrite Hproc. unfold emit. cbn [bind].
  reflexivity.
Qed.

Lemma sql_file_read_after_classification_witness :
  let txt := "DELETE FROM ORDERS WHERE id=1" in
  let p := "jobs/purge.sql" in
  remote_execute_sql (quiet_world txt) (call_with (QStr p) "DELETE" "ORDERS" DDict)
  = ([EvFileRead p; EvCredentials "direct"; EvTunnelEnter "direct" "default";
      EvConnector; EvCursor; EvExecute txt; EvCommit; EvConnClose; EvTunnelExit],
     inr None).
Proof.
  intros txt p.
  refine (eq_trans
            (sql_file_read_after_classification (quiet_world txt)
               (call_with (QStr p) "DELETE" "ORDERS" DDict) p "DELETE" txt DDict
               eq_refl (ex_intro _ "jobs/purge" eq_refl) eq_refl _ eq_refl _)
            _).
  - discriminate.
  - discriminate.
  - reflexivity.
Defined.

(** ** Case of [query_type] *)

(** C7, on the code. The same mismatching select, asked for as ["SELECT"]
    and as ["select"]: the first is refused at line 151, the second skips
    lines 145-151 (the test there is on the exact string) and is run by the
    dispatch, which upper-cases the type. *)
Theorem lowercase_select_skips_table_check :
  let q := "SELECT * FROM ORDERS LIMIT 10" in
  let w := quiet_world EmptyString in
  kind_of "select" = kind_of "SELECT"
  /\ remote_execute_sql w (call_with (QStr q) "SELECT" "CUSTOMERS" DDict)
     = ([EvCredentials "direct"; EvTunnelEnter "direct" "default"; EvTunnelExit],
        inl (SyntaxError msg_table_select))
  /\ remote_execute_sql w (call_with (QStr q) "select" "CUSTOMERS" DDict)
     = ([EvCredentials "direct"; EvTunnelEnter "direct" "default"; EvConnector;
         EvReadSql (QStr q); EvConnClose; EvTunnelExit],
        inr (Some [["1"]])).
Proof. repeat split; reflexivity. Qed.

(** An ASCII type that the dispatch does not know ends the call with an
    error. *)
Lemma unknown_type_rejected (w : World) (a : Args) :
  query_type a <> EmptyString ->
  ascii_text (query_type a) = true ->
  kind_of (query_type a) = None ->
  exists e, outcome (remote_execute_sql w a) = inl e.
Proof.
  intros Hqt _ Hk.
  assert (Hc : classify (sql_query a) (query_type a) (data a)
               = inr (query_type a, data a)).
  { unfold classify. apply nonempty_true in Hqt. now rewrite Hqt. }
  rewrite run_unfold, Hc.
  destruct (process_sql w (query_type a) (sql_query a)) as [t0 [e|q]]; [now exists e|].
  destruct (get_credentials w) as [e|]; [now exists e|].
  destruct (tunnel_enter w) as [e|]; [now exists e|].
  destruct (tunnel_exit w) as [e|]; [now exists e|].
  cbn [outcome snd].
  unfold kind_of in Hk.
  assert (Hs : (upper (query_type a) =? "SELECT") = false)
    by (destruct (upper (query_type a) =? "SELECT"); [discriminate | reflexivity]).
  rewrite Hs in Hk.
  assert (Hi : (upper (query_type a) =? "INSERT") = false)
    by (destruct (upper (query_type a) =? "INSERT"); [discriminate | reflexivity]).
  rewrite Hi in Hk.
  assert (Hp : existsb (String.eqb (upper (query_type a))) passthrough_types = false).
  { unfold passthrough_types. cbn [existsb].
    repeat match type of Hk with
           | (if ?b then _ else _) = None => destruct b; [discriminate Hk|]
           end.
    reflexivity. }
  assert (Hx : (query_type a =? "SELECT") = false).
  { destruct (query_type a =? "SELECT") eqn:E; [|reflexivity].
    apply String.eqb_eq in E. rewrite E in Hs. discriminate Hs. }
  exists (ValueError msg_unknown).
  unfold tunnel_block, set_table. rewrite Hx, bind_ret_l.
  unfold dispatch. now rewrite Hs, Hi, Hp.
Qed.

(** ** Table extraction *)

(** Line 147 through [split]: the piece after the first [FROM ], cut at the
    next [FROM ] and then at the first space. *)
Lemma extract_table_cut (q : string) :
  extract_table q
  = match after_first "FROM " (normalised q) with
    | None => inl IndexError
    | Some rest => inr (before " " (before "FROM " rest))
    end.
Proof.
  unfold extract_table. fold (normalised q).
  rewrite split_second by discriminate.
  destruct (after_first "FROM " (normalised q)) as [rest|]; [|reflexivity].
  cbn [option_map]. now rewrite split_head by discriminate.
Qed.

Lemma ends_with_tail (suffix : string) (c : ascii) (s : string) :
  ends_with suffix s -> ends_with suffix (String c s).
Proof. intros [pre ->]. now exists (String c pre). Qed.

Lemma before_cons (sep : string) (c : ascii) (s : string) :
  before sep (String c s)
  = if prefix sep (String c s) then EmptyString else String c (before sep s).
Proof. reflexivity. Qed.

Lemma before_space_cons (c : ascii) (s : string) :
  before " " (String c s)
  = if Ascii.eqb c space then EmptyString else String c (before " " s).
Proof.
  cbn [before prefix]. change " "%char with space.
  destruct (ascii_dec space c) as [<-|ne].
  - now rewrite prefix_empty.
  - apply not_eq_sym in ne. apply Ascii.eqb_neq in ne. now rewrite ne.
Qed.

(** Cutting at the next [FROM ] first changes the token only when the
    token itself ends in [FROM]. *)
Lemma token_not_cut (rest : string) :
  ~ ends_with "FROM" (before " " rest) ->
  before " " (before "FROM " rest) = before " " rest.
Proof.
  induction rest as [|c rest IH]; intros Hend; [reflexivity|].
  rewrite (before_cons "FROM ").
  destruct (prefix "FROM " (String c rest)) eqn:Hp.
  - exfalso. apply Hend. apply prefix_split in Hp.
    remember (drop (String.length "FROM ") (String c rest)) as tl eqn:Htl.
    rewrite Hp. exists EmptyString. cbn [append].
    rewrite !before_space_cons. reflexivity.
  - rewrite !before_space_cons. rewrite before_space_cons in Hend.
    destruct (Ascii.eqb c space); [reflexivity|].
    f_equal. apply IH. intros H. apply Hend. now apply ends_with_tail.
Qed.

(** The table [SHIPPED_FROM] is cut short at its own last letters. *)
Lemma table_token_cut_at_from :
  let q := "select * from shipped_from where id = 1" in
  spec_table q = Some "SHIPPED_FROM"
  /\ extract_table q = inr "SHIPPED_"
  /\ set_table "SELECT" EmptyString (QStr q) = ret "SHIPPED_".
Proof. repeat split; reflexivity. Qed.

(** C9, amended. For a select with no table given whose text is ASCII and,
    upper-cased with newlines replaced by spaces, holds [FROM ], the table
    is the text that follows the first [FROM ], up to the next space or the
    next [FROM ], whichever comes first; it may be empty.  It is the first
    space-delimited token after the first [FROM ] unless that token ends in
    [FROM]. *)
Theorem extracted_table_is_cut_token (q rest : string) :
  ascii_text q = true ->
  after_first "FROM " (normalised q) = Some rest ->
  set_table "SELECT" EmptyString (QStr q)
  = ret (before " " (before "FROM " rest))
  /\ (~ ends_with "FROM" (before " " rest) ->
      spec_table q = Some (before " " rest)
      /\ set_table "SELECT" EmptyString (QStr q) = ret (before " " rest)).
Proof.
  intros _ Hrest.
  assert (H : set_table "SELECT" EmptyString (QStr q)
              = ret (before " " (before "FROM " rest))).
  { unfold set_table. cbn [String.eqb Ascii.eqb Bool.eqb].
    now rewrite extract_table_cut, Hrest. }
  split; [exact H|].
  intros Hend. split.
  - unfold spec_table. now rewrite Hrest.
  - now rewrite H, token_not_cut.
Qed.

Lemma extracted_table_is_cut_token_witness :
  set_table "SELECT" EmptyString (QStr "select id from orders where id = 1")
  = ret "ORDERS".
Proof.
  apply (proj1 (extracted_table_is_cut_token
                  "select id from orders where id = 1" "ORDERS WHERE ID = 1"
                  eq_refl eq_refl)).
Defined.

(** Without [FROM ] in the text the extraction raises. *)
Lemma extract_table_without_from (q : string) :
  after_first "FROM " (normalised q) = None ->
  set_table "SELECT" EmptyString (QStr q) = raise IndexError.
Proof.
  intros H. unfold set_table. cbn [String.eqb Ascii.eqb Bool.eqb].
  now rewrite extract_table_cut, H.
Qed.

(** * Further properties of [remote_execute_sql] *)

(** ** What inspection can answer *)

(** With an empty [query_type] the type is one of INSERT, UNLOAD, COPY,
    UPDATE and SELECT: a DELETE, CREATE or GRANT is never found by looking
    at the text (the comment of lines 116-117), and such a statement is
    taken for a select. *)
Theorem inspection_never_finds_delete (q : sql_arg) (d d' : data_arg)
  (sql_type : string) :
  classify q EmptyString d = inr (sql_type, d') ->
  In sql_type inspected_types
  /\ kind_of sql_type <> Some Delete
  /\ kind_of sql_type <> Some Create
  /\ kind_of sql_type <> Some Grant.
Proof.
  unfold classify. cbn [nonempty String.eqb negb].
  assert (Hall : forall t, In t inspected_types ->
                   kind_of t <> Some Delete /\ kind_of t <> Some Create
                   /\ kind_of t <> Some Grant).
  { intros t Ht. unfold inspected_types in Ht. cbn [In] in Ht.
    repeat (destruct Ht as [<-|Ht]; [repeat split; discriminate|]).
    destruct Ht. }
  intros H.
  assert (Hin : In sql_type inspected_types).
  { unfold inspected_types.
    destruct d as [|df]; [destruct q as [s|df]|];
      repeat match type of H with
             | (if ?b then _ else _) = _ => destruct b
             end;
      inversion H; cbn [In]; auto 10. }
  split; [exact Hin | now apply Hall].
Qed.

Lemma inspection_never_finds_delete_witness :
  In "SELECT" inspected_types /\ kind_of "SELECT" <> Some Delete.
Proof.
  destruct (inspection_never_finds_delete
              (QStr "delete from orders where id = 1") DDict DDict "SELECT" eq_refl)
    as (H1 & H2 & _).
  split; assumption.
Defined.

(** When [data] is a DataFrame and [query_type] is empty the call is an
    insert of that DataFrame whatever [sql_query] is: the text is neither
    inspected, nor read as a file, nor executed. *)
Theorem data_frame_forces_insert (w : World) (a : Args) (df : DataFrame) :
  query_type a = EmptyString ->
  data a = DFrame df ->
  remote_execute_sql w a = insert_program w a (DFrame df).
Proof.
  intros Hqt Hd. apply insert_run. rewrite Hqt, Hd. reflexivity.
Qed.

Lemma data_frame_forces_insert_witness :
  remote_execute_sql (quiet_world "DELETE FROM ORDERS")
    (call_with (QStr "jobs/purge.sql") EmptyString "ORDERS" (DFrame [["1"]]))
  = ([EvCredentials "direct"; EvTunnelEnter "direct" "default"; EvConnector;
      EvInsertData (DFrame [["1"]]) "ORDERS" true true; EvConnClose; EvTunnelExit],
     inr None).
Proof.
  refine (eq_trans
            (data_frame_forces_insert (quiet_world "DELETE FROM ORDERS")
               (call_with (QStr "jobs/purge.sql") EmptyString "ORDERS" (DFrame [["1"]]))
               [["1"]] eq_refl eq_refl)
            _).
  reflexivity.
Defined.

(** ** Queries taken for files *)

Lemma sql_substring_detected (q : string) :
  (exists pre s post, q = pre ++ s ++ post /\ lower s = ".sql") ->
  nonempty q && py_in ".sql" (lower q) = true.
Proof.
  intros (pre & s & post & -> & Hs). apply andb_true_iff. split.
  - apply nonempty_true. intros H.
    destruct pre; [|discriminate]. destruct s; discriminate.
  - rewrite !lower_app, Hs. apply py_in_app.
Qed.

Lemma process_sql_reads (w : World) (sql_type q : string) :
  sql_type <> "INSERT" ->
  (exists pre s post, q = pre ++ s ++ post /\ lower s = ".sql") ->
  process_sql w sql_type (QStr q)
  = (txt <- call_val (EvFileRead q) (f_read w q) ;;
     if nonempty txt then ret (QStr txt) else raise (AssertionError msg_file)).
Proof.
  intros Hins Hsub. unfold process_sql.
  apply String.eqb_neq in Hins. rewrite Hins. cbn [negb].
  now rewrite (sql_substring_detected q Hsub).
Qed.

(** Line 128 looks for [.sql] anywhere in the text and in any case, so a
    statement that merely mentions such a name is handed to [f_read] as if
    it were a path, before anything else is done. *)
Theorem sql_substring_is_read_as_file (w : World) (a : Args)
  (q sql_type : string) (d : data_arg) :
  sql_query a = QStr q ->
  classify (QStr q) (query_type a) (data a) = inr (sql_type, d) ->
  sql_type <> "INSERT" ->
  (exists pre s post, q = pre ++ s ++ post /\ lower s = ".sql") ->
  exists rest, trace (remote_execute_sql w a) = EvFileRead q :: rest.
Proof.
  intros Hq Hc Hins Hsub.
  unfold remote_execute_sql. rewrite Hq, Hc. cbn [of_sum]. rewrite bind_ret_l.
  rewrite (process_sql_reads w sql_type q Hins Hsub).
  rewrite !bind_trace, call_val_trace. eexists. reflexivity.
Qed.

Lemma sql_substring_is_read_as_file_witness :
  exists rest,
    trace (remote_execute_sql (quiet_world "SELECT 1 FROM DUAL")
             (call_with (QStr "select * from archive.SQLite_rows") EmptyString
                        EmptyString DDict))
    = EvFileRead "select * from archive.SQLite_rows" :: rest.
Proof.
  apply (sql_substring_is_read_as_file (quiet_world "SELECT 1 FROM DUAL")
           (call_with (QStr "select * from archive.SQLite_rows") EmptyString
                      EmptyString DDict)
           "select * from archive.SQLite_rows" "SELECT" DDict eq_refl eq_refl).
  - discriminate.
  - exists "select * from archive", ".SQL", "ite_rows". split; reflexivity.
Defined.

(** A file that cannot be read, or that is empty, stops the call before
    the credentials are resolved: the error of [f_read] is passed on, and an
    empty text raises the [AssertionError] of line 131. *)
Theorem unreadable_file_stops_early (w : World) (a : Args)
  (q sql_type : string) (d : data_arg) :
  sql_query a = QStr q ->
  classify (QStr q) (query_type a) (data a) = inr (sql_type, d) ->
  sql_type <> "INSERT" ->
  (exists pre s post, q = pre ++ s ++ post /\ lower s = ".sql") ->
  (forall e, f_read w q = inl e ->
             remote_execute_sql w a = ([EvFileRead q], inl e))
  /\ (f_read w q = inr EmptyString ->
      remote_execute_sql w a = ([EvFileRead q], inl (AssertionError msg_file))).
Proof.
  intros Hq Hc Hins Hsub.
  assert (Hrun : remote_execute_sql w a
                 = (sql_query <- process_sql w sql_type (QStr q) ;;
                    call (EvCredentials (connection a)) (get_credentials w) ;;
                    with_tunnel w (connection a) (engine a)
                      (tunnel_block w a sql_type sql_query d))).
  { unfold remote_execute_sql. rewrite Hq, Hc. cbn [of_sum]. now rewrite bind_ret_l. }
  rewrite Hrun, (process_sql_reads w sql_type q Hins Hsub).
  split.
  - intros e He. unfold call_val. now rewrite He.
  - intros He. unfold call_val. now rewrite He.
Qed.

Lemma unreadable_file_stops_early_witness :
  remote_execute_sql (quiet_world EmptyString)
    (call_with (QStr "reports/monthly.sql") EmptyString EmptyString DDict)
  = ([EvFileRead "reports/monthly.sql"], inl (AssertionError msg_file)).
Proof.
  apply (proj2 (unreadable_file_stops_early (quiet_world EmptyString)
                  (call_with (QStr "reports/monthly.sql") EmptyString EmptyString DDict)
                  "reports/monthly.sql" "SELECT" DDict eq_refl eq_refl
                  ltac:(discriminate)
                  (ex_intro _ "reports/monthly"
                     (ex_intro _ ".sql" (ex_intro _ EmptyString (conj eq_refl eq_refl)))))).
  reflexivity.
Defined.

(** ** Errors raised inside the tunnel *)

Lemma after_first_absent (sep s : string) :
  py_in sep s = false -> after_first sep s = None.
Proof.
  induction s as [|c s IH]; [reflexivity|].
  cbn [py_in after_first]. intros H.
  apply orb_false_iff in H as [H1 H2]. rewrite H1. now apply IH.
Qed.

(** A select with no table given whose ASCII text has no [FROM ] (a
    [SELECT 1], or a [FROM] followed by a tab) fails with the [IndexError] of
    line 147, inside the tunnel, which is released; nothing is sent to the
    database. *)
Theorem select_without_from_raises (w : World) (a : Args)
  (d : data_arg) (t0 : list event) (q : string) :
  classify (sql_query a) (query_type a) (data a) = inr ("SELECT", d) ->
  process_sql w "SELECT" (sql_query a) = (t0, inr (QStr q)) ->
  get_credentials w = None ->
  tunnel_enter w = None ->
  tunnel_exit w = None ->
  table a = EmptyString ->
  ascii_text q = true ->
  ~ occurs "FROM " (normalised q) ->
  remote_execute_sql w a
  = (t0 ++ [EvCredentials (connection a);
            EvTunnelEnter (connection a) (engine a); EvTunnelExit],
     inl IndexError)%list.
Proof.
  intros Hc Hp Hcred Hin Hout Ht _ Hfrom. apply py_in_absent in Hfrom.
  rewrite (run_in_tunnel w a "SELECT" d t0 (QStr q) Hc Hp Hcred Hin Hout).
  unfold tunnel_block. rewrite Ht.
  rewrite (extract_table_without_from q (after_first_absent _ _ Hfrom)).
  reflexivity.
Qed.

Lemma select_without_from_raises_witness :
  remote_execute_sql (quiet_world EmptyString)
    (call_with (QStr "select count(*) as n") EmptyString EmptyString DDict)
  = ([EvCredentials "direct"; EvTunnelEnter "direct" "default"; EvTunnelExit],
     inl IndexError).
Proof.
  apply (select_without_from_raises (quiet_world EmptyString)
           (call_with (QStr "select count(*) as n") EmptyString EmptyString DDict)
           DDict [] "select count(*) as n");
    try reflexivity.
  apply py_in_absent. reflexivity.
Defined.

Lemma unknown_type_tests (sql_type : string) :
  kind_of sql_type = None ->
  (sql_type =? "SELECT") = false
  /\ (upper sql_type =? "SELECT") = false
  /\ (upper sql_type =? "INSERT") = false
  /\ existsb (String.eqb (upper sql_type)) passthrough_types = false.
Proof.
  unfold kind_of. cbv zeta. intros Hk.
  destruct (upper sql_type =? "SELECT") eqn:Hs; [discriminate|].
  destruct (upper sql_type =? "INSERT") eqn:Hi; [discriminate|].
  assert (Hp : existsb (String.eqb (upper sql_type)) passthrough_types = false).
  { unfold passthrough_types. cbn [existsb].
    repeat match type of Hk with
           | (if ?b then _ else _) = None => destruct b; [discriminate Hk|]
           end.
    reflexivity. }
  repeat split; try assumption.
  destruct (sql_type =? "SELECT") eqn:E; [|reflexivity].
  apply String.eqb_eq in E. rewrite E in Hs. discriminate Hs.
Qed.

(** An ASCII [query_type] that is none of the eight kinds, in any case, is
    not refused at once: the file is read if there is one, the credentials
    are resolved and the tunnel opened, and only then is the [ValueError] of
    line 181 raised, the tunnel being released. *)
Theorem unknown_type_raised_in_tunnel (w : World) (a : Args)
  (t0 : list event) (q : sql_arg) :
  query_type a <> EmptyString ->
  ascii_text (query_type a) = true ->
  kind_of (query_type a) = None ->
  process_sql w (query_type a) (sql_query a) = (t0, inr q) ->
  get_credentials w = None ->
  tunnel_enter w = None ->
  tunnel_exit w = None ->
  remote_execute_sql w a
  = (t0 ++ [EvCredentials (connection a);
            EvTunnelEnter (connection a) (engine a); EvTunnelExit],
     inl (ValueError "Unknown query_type, should be as: ['SELECT', 'INSERT', 'DELETE', 'COPY', 'UNLOAD', 'UPDATE', 'CREATE', 'GRANT']"))%list.
Proof.
  intros Hqt _ Hk Hp Hcred Hin Hout.
  assert (Hc : classify (sql_query a) (query_type a) (data a)
               = inr (query_type a, data a)).
  { unfold classify. apply nonempty_true in Hqt. now rewrite Hqt. }
  rewrite (run_in_tunnel w a _ _ t0 q Hc Hp Hcred Hin Hout).
  destruct (unknown_type_tests _ Hk) as (E0 & E1 & E2 & E3).
  unfold tunnel_block, set_table. rewrite E0, bind_ret_l.
  unfold dispatch. now rewrite E1, E2, E3.
Qed.

Lemma unknown_type_raised_in_tunnel_witness :
  remote_execute_sql (quiet_world EmptyString)
    (call_with (QStr "TRUNCATE TABLE ORDERS") "TRUNCATE" "ORDERS" DDict)
  = ([EvCredentials "direct"; EvTunnelEnter "direct" "default"; EvTunnelExit],
     inl (ValueError "Unknown query_type, should be as: ['SELECT', 'INSERT', 'DELETE', 'COPY', 'UNLOAD', 'UPDATE', 'CREATE', 'GRANT']")).
Proof.
  apply (unknown_type_raised_in_tunnel (quiet_world EmptyString)
           (call_with (QStr "TRUNCATE TABLE ORDERS") "TRUNCATE" "ORDERS" DDict)
           [] (QStr "TRUNCATE TABLE ORDERS"));
    try reflexivity.
  discriminate.
Defined.

(** When no table is given, the test of line 173 holds for every text: a
    CREATE, GRANT, DELETE, COPY, UNLOAD or UPDATE is executed and committed
    without any check. *)
Theorem omitted_table_passes_check (w : World) (a : Args) (sql_type : string)
  (d : data_arg) (t0 : list event) (q : string) :
  classify (sql_query a) (query_type a) (data a) = inr (sql_type, d) ->
  existsb (String.eqb (upper sql_type)) passthrough_types = true ->
  process_sql w sql_type (sql_query a) = (t0, inr (QStr q)) ->
  table a = EmptyString ->
  get_credentials w = None ->
  tunnel_enter w = None ->
  tunnel_exit w = None ->
  connector w = None ->
  cursor w = None ->
  execute w q = None ->
  commit w = None ->
  conn_close w = None ->
  remote_execute_sql w a
  = (t0 ++ [EvCredentials (connection a); EvTunnelEnter (connection a) (engine a);
            EvConnector; EvCursor; EvExecute q; EvCommit; EvConnClose; EvTunnelExit],
     inr None)%list.
Proof.
  intros Hc Hpass Hp Ht Hcred Hin Hout H1 H2 H3 H4 H5.
  rewrite (run_in_tunnel w a sql_type d t0 (QStr q) Hc Hp Hcred Hin Hout).
  destruct (passthrough_not_select _ Hpass) as (E1 & E2 & E3).
  unfold tunnel_block, set_table. rewrite E1, bind_ret_l.
  unfold dispatch. rewrite E2, E3, Hpass, Ht.
  change (upper EmptyString) with EmptyString. rewrite py_in_empty.
  unfold call. rewrite H1, H2, H3, H4, H5. reflexivity.
Qed.

Lemma omitted_table_passes_check_witness :
  let q := "update orders set paid = 1" in
  remote_execute_sql (quiet_world EmptyString)
    (call_with (QStr q) EmptyString EmptyString DDict)
  = ([EvCredentials "direct"; EvTunnelEnter "direct" "default";
      EvConnector; EvCursor; EvExecute q; EvCommit; EvConnClose; EvTunnelExit],
     inr None).
Proof.
  intros q.
  apply (omitted_table_passes_check (quiet_world EmptyString)
           (call_with (QStr q) EmptyString EmptyString DDict)
           "UPDATE" DDict [] q);
    reflexivity.
Defined.

(** ** The database connection *)

Lemma count_if_app (p : event -> bool) (t u : list event) :
  count_if p (t ++ u) = count_if p t + count_if p u.
Proof. unfold count_if. now rewrite filter_app, length_app. Qed.

Lemma set_table_silent (sql_type table : string) (q : sql_arg) :
  trace (set_table sql_type table q) = [].
Proof.
  unfold set_table, upper_of.
  destruct (sql_type =? "SELECT"); [|reflexivity].
  destruct (table =? EmptyString).
  - destruct q as [s|df]; [|reflexivity]. now destruct (extract_table s).
  - destruct q as [s|df]; [|reflexivity]. rewrite bind_ret_l.
    now destruct (_ && _).
Qed.

Lemma process_sql_shape (w : World) (sql_type : string) (q : sql_arg) :
  trace (process_sql w sql_type q) = []
  \/ exists p, trace (process_sql w sql_type q) = [EvFileRead p].
Proof.
  unfold process_sql.
  destruct (negb (sql_type =? "INSERT")); [|now left].
  destruct q as [s|df]; [|now left].
  destruct (nonempty s && py_in ".sql" (lower s)); [|now left].
  right. exists s. unfold call_val.
  destruct (f_read w s) as [e|txt]; [reflexivity|].
  cbn. now destruct (nonempty txt).
Qed.

Ltac run_dispatch :=
  unfold dispatch, call, call_val;
  repeat match goal with
         | |- context [if ?b then _ else _] => destruct b
         | |- context [match ?x with inl _ => _ | inr _ => _ end] => destruct x
         | |- context [match ?x with Some _ => _ | None => _ end] => destruct x
         | |- context [match ?x with QStr _ => _ | QFrame _ => _ end] => destruct x
         end;
  cbn.

Lemma dispatch_balanced (w : World) (a : Args) (sql_type table : string)
  (q : sql_arg) (d : data_arg) (r : option DataFrame) :
  outcome (dispatch w a sql_type table q d) = inr r ->
  count_if is_connector (trace (dispatch w a sql_type table q d))
  = count_if is_conn_close (trace (dispatch w a sql_type table q d))
  /\ count_if is_connector (trace (dispatch w a sql_type table q d)) <= 1.
Proof.
  run_dispatch; intros H; try discriminate H; split; (reflexivity || lia).
Qed.

Lemma dispatch_unclosed (w : World) (a : Args) (sql_type table : string)
  (q : sql_arg) (d : data_arg) (e : exn) :
  conn_close w = None ->
  outcome (dispatch w a sql_type table q d) = inl e ->
  count_if is_conn_close (trace (dispatch w a sql_type table q d)) = 0.
Proof.
  intros Hclose. unfold dispatch, call, call_val. rewrite Hclose.
  repeat match goal with
         | |- context [if ?b then _ else _] => destruct b
         | |- context [match ?x with inl _ => _ | inr _ => _ end] => destruct x
         | |- context [match ?x with Some _ => _ | None => _ end] => destruct x
         | |- context [match ?x with QStr _ => _ | QFrame _ => _ end] => destruct x
         end;
  cbn; intros H; try discriminate H; reflexivity.
Qed.

Lemma tunnel_block_dispatch (w : World) (a : Args) (sql_type : string)
  (q : sql_arg) (d : data_arg) :
  (exists e, tunnel_block w a sql_type q d = ([], inl e))
  \/ exists t, tunnel_block w a sql_type q d = dispatch w a sql_type t q d.
Proof.
  unfold tunnel_block.
  pose proof (set_table_silent sql_type (table a) q) as Hs.
  destruct (set_table sql_type (table a) q) as [t [e|tab]]; cbn in Hs; subst t.
  - left. now exists e.
  - right. exists tab. cbn. now destruct (dispatch _ _ _ _ _ _).
Qed.

Lemma count_if_file (p : event -> bool) (t0 : list event) :
  (forall s, p (EvFileRead s) = false) ->
  t0 = [] \/ (exists s, t0 = [EvFileRead s]) ->
  count_if p t0 = 0.
Proof.
  intros Hp [->|[s ->]]; [reflexivity|].
  unfold count_if. cbn. now rewrite Hp.
Qed.

(** A call that returns has closed the connection it opened: [connector()]
    and [conn.close()] are each called once, or neither is (a cached
    select leaves the connection to [_cache]). *)
Theorem connection_closed_on_return (w : World) (a : Args) (r : option DataFrame) :
  outcome (remote_execute_sql w a) = inr r ->
  count_if is_connector (trace (remote_execute_sql w a))
  = count_if is_conn_close (trace (remote_execute_sql w a))
  /\ count_if is_connector (trace (remote_execute_sql w a)) <= 1.
Proof.
  rewrite run_unfold.
  destruct (classify (sql_query a) (query_type a) (data a)) as [e|[sql_type d]];
    [discriminate|].
  pose proof (process_sql_shape w sql_type (sql_query a)) as Hshape.
  destruct (process_sql w sql_type (sql_query a)) as [t0 [e|q]]; [discriminate|].
  cbn [trace fst] in Hshape.
  destruct (get_credentials w); [discriminate|].
  destruct (tunnel_enter w); [discriminate|].
  destruct (tunnel_exit w); [discriminate|].
  cbn [outcome snd trace fst]. intros Hr.
  destruct (tunnel_block_dispatch w a sql_type q d) as [[e Hb]|[t Hb]];
    try (rewrite Hb in Hr; discriminate Hr).
  rewrite Hb in Hr |- *.
  destruct (dispatch_balanced w a sql_type t q d r Hr) as [Heq Hle].
  change (EvCredentials (connection a) :: EvTunnelEnter (connection a) (engine a)
            :: trace (dispatch w a sql_type t q d) ++ [EvTunnelExit])%list
    with ([EvCredentials (connection a); EvTunnelEnter (connection a) (engine a)]
            ++ trace (dispatch w a sql_type t q d) ++ [EvTunnelExit])%list.
  rewrite !count_if_app.
  rewrite (count_if_file is_connector t0), (count_if_file is_conn_close t0);
    try assumption; try reflexivity.
  cbn. lia.
Qed.

Lemma connection_closed_on_return_witness :
  let tr := trace (remote_execute_sql (quiet_world EmptyString)
                     (call_with (QStr "select * from orders") EmptyString
                                EmptyString DDict)) in
  count_if is_connector tr = count_if is_conn_close tr
  /\ count_if is_connector tr <= 1.
Proof.
  intros tr.
  apply (connection_closed_on_return (quiet_world EmptyString)
           (call_with (QStr "select * from orders") EmptyString EmptyString DDict)
           (Some [["1"]])).
  reflexivity.
Defined.

(** A call that fails never closes its connection: where [conn.close()]
    and the tunnel's [__exit__] themselves return, an error means that
    [conn.close()] was not called, even when the connector had been opened
    (lines 159-162 and 174-184 have no [finally]). *)
Theorem connection_left_open_on_error (w : World) (a : Args) (e : exn) :
  conn_close w = None ->
  tunnel_exit w = None ->
  outcome (remote_execute_sql w a) = inl e ->
  count_if is_conn_close (trace (remote_execute_sql w a)) = 0.
Proof.
  intros Hclose Hexit. rewrite run_unfold.
  destruct (classify (sql_query a) (query_type a) (data a)) as [x|[sql_type d]];
    [reflexivity|].
  pose proof (process_sql_shape w sql_type (sql_query a)) as Hshape.
  destruct (process_sql w sql_type (sql_query a)) as [t0 [x|q]];
    cbn [trace fst] in Hshape.
  { intros _. cbn [trace fst]. now apply count_if_file. }
  assert (H0 : count_if is_conn_close t0 = 0) by now apply count_if_file.
  destruct (get_credentials w).
  { intros _. cbn [trace fst]. rewrite count_if_app, H0. reflexivity. }
  destruct (tunnel_enter w).
  { intros _. cbn [trace fst]. rewrite count_if_app, H0. reflexivity. }
  rewrite Hexit. cbn [outcome snd trace fst]. intros He.
  change (EvCredentials (connection a) :: EvTunnelEnter (connection a) (engine a)
            :: trace (tunnel_block w a sql_type q d) ++ [EvTunnelExit])%list
    with ([EvCredentials (connection a); EvTunnelEnter (connection a) (engine a)]
            ++ trace (tunnel_block w a sql_type q d) ++ [EvTunnelExit])%list.
  rewrite !count_if_app, H0.
  destruct (tunnel_block_dispatch w a sql_type q d) as [[x Hb]|[t Hb]];
    rewrite Hb in He |- *; try reflexivity.
  now rewrite (dispatch_unclosed w a sql_type t q d e Hclose He).
Qed.

Lemma connection_left_open_on_error_witness :
  let tr := trace (remote_execute_sql (failing_backend EmptyString)
                     (call_with (QStr "select * from orders") EmptyString
                                EmptyString DDict)) in
  count_if is_connector tr = 1 /\ count_if is_conn_close tr = 0.
Proof.
  intros tr. split; [reflexivity|].
  apply (connection_left_open_on_error (failing_backend EmptyString)
           (call_with (QStr "select * from orders") EmptyString EmptyString DDict)
           (BackendError "permission denied"));
    reflexivity.
Defined.

(** When the credentials cannot be resolved nothing is opened: no tunnel,
    no connector, no cache lookup; the call fails. *)
Theorem credentials_failure_opens_nothing (w : World) (a : Args) (e : exn) :
  get_credentials w = Some e ->
  Forall (fun ev => is_tunnel_event ev = false /\ reaches_backend ev = false)
         (trace (remote_execute_sql w a))
  /\ exists e', outcome (remote_execute_sql w a) = inl e'.
Proof.
  intros Hcred. rewrite run_unfold.
  destruct (classify (sql_query a) (query_type a) (data a)) as [x|[sql_type d]].
  { split; [constructor | now exists x]. }
  pose proof (process_sql_shape w sql_type (sql_query a)) as Hshape.
  assert (Hfile : forall t0, t0 = [] \/ (exists p, t0 = [EvFileRead p]) ->
            Forall (fun ev => is_tunnel_event ev = false /\ reaches_backend ev = false) t0).
  { intros t0 [->|[p ->]]; repeat constructor. }
  destruct (process_sql w sql_type (sql_query a)) as [t0 [x|q]];
    cbn [trace fst] in Hshape.
  { split; [now apply Hfile | now exists x]. }
  rewrite Hcred. split; [|now exists e].
  cbn [trace fst]. apply Forall_app. split; [now apply Hfile | repeat constructor].
Qed.

Lemma credentials_failure_opens_nothing_witness :
  let w := {| f_read := fun _ => inr EmptyString;
              get_credentials := Some (BackendError "no config file");
              tunnel_enter := None; tunnel_exit := None; connector := None;
              read_sql := fun _ => inr []; cached_read := fun _ => inr [];
              insert_data := fun _ _ => None; cursor := None;
              execute := fun _ => None; commit := None; conn_close := None |} in
  exists e',
    outcome (remote_execute_sql w
               (call_with (QStr "select * from orders") EmptyString EmptyString DDict))
    = inl e'.
Proof.
  intros w.
  apply (proj2 (credentials_failure_opens_nothing w
                  (call_with (QStr "select * from orders") EmptyString EmptyString DDict)
                  (BackendError "no config file") eq_refl)).
Defined.

(** * Properties of the formatting helpers *)

Import Fmt.

(** ** Numerals *)

Lemma to_int_proper (z : Z) :
  Z.to_int z <> Decimal.Pos Decimal.Nil /\ Z.to_int z <> Decimal.Neg Decimal.Nil.
Proof.
  destruct z as [|p|p]; cbn; split; try discriminate;
    intros [= H]; now apply (DecimalPos.Unsigned.to_uint_nonnil p).
Qed.

(** The numeral of an integer reads back as that integer. *)
Lemma decimal_value_str (z : Z) : decimal_value (str_of_int z) = Some z.
Proof.
  unfold decimal_value, str_of_int.
  destruct (to_int_proper z) as [H1 H2].
  rewrite (NilZero.isi _ H1 H2). cbn. now rewrite DecimalZ.of_to.
Qed.

Lemma str_of_int_inj (a b : Z) : str_of_int a = str_of_int b -> a = b.
Proof.
  intros H. pose proof (decimal_value_str a) as Ha.
  rewrite H, decimal_value_str in Ha. now injection Ha.
Qed.

Lemma uint_chars (u : Decimal.uint) :
  all_chars is_digit (NilEmpty.string_of_uint u) = true.
Proof. induction u; cbn; try reflexivity; exact IHu. Qed.

Lemma uint_zero_chars (u : Decimal.uint) :
  all_chars is_digit (NilZero.string_of_uint u) = true.
Proof. destruct u; try reflexivity; apply (uint_chars (_ u)). Qed.

Lemma all_chars_weaken (p p' : ascii -> bool) (s : string) :
  (forall c, p c = true -> p' c = true) ->
  all_chars p s = true -> all_chars p' s = true.
Proof.
  intros Hp. induction s as [|c s IH]; [reflexivity|]. cbn.
  intros H. apply andb_true_iff in H as [H1 H2].
  now rewrite (Hp _ H1), IH.
Qed.

Lemma str_of_int_chars (z : Z) : all_chars numeral_char (str_of_int z) = true.
Proof.
  unfold str_of_int. destruct (Z.to_int z) as [u|u]; cbn [NilZero.string_of_int].
  - apply (all_chars_weaken is_digit); [|apply uint_zero_chars].
    intros c Hc. unfold numeral_char. now rewrite Hc.
  - cbn [all_chars]. apply andb_true_iff. split; [reflexivity|].
    apply (all_chars_weaken is_digit); [|apply uint_zero_chars].
    intros c Hc. unfold numeral_char. now rewrite Hc.
Qed.

Lemma str_of_nonneg_digits (z : Z) :
  (0 <= z)%Z -> all_chars is_digit (str_of_int z) = true.
Proof.
  intros Hz. unfold str_of_int. destruct z as [|p|p]; [reflexivity| |lia].
  cbn. apply uint_zero_chars.
Qed.

Lemma str_of_int_nonempty (z : Z) : str_of_int z <> EmptyString.
Proof.
  unfold str_of_int. destruct (Z.to_int z) as [u|u]; cbn; [|discriminate].
  destruct u; cbn; discriminate.
Qed.

(** ** [str2bool] *)

Lemma lower_upper_char (c : ascii) : lower_char (upper_char c) = lower_char c.
Proof. destruct c as [[|] [|] [|] [|] [|] [|] [|] [|]]; reflexivity. Qed.

Lemma lower_upper (s : string) : lower (upper s) = lower s.
Proof.
  induction s as [|c s IH]; [reflexivity|].
  cbn [upper lower map_chars] in *. now rewrite lower_upper_char, IH.
Qed.

Lemma lower_numeral_char (c : ascii) :
  numeral_char c = true -> lower_char c = c.
Proof.
  destruct c as [[|] [|] [|] [|] [|] [|] [|] [|]]; intros H;
    try reflexivity; discriminate H.
Qed.

Lemma lower_numeral (s : string) :
  all_chars numeral_char s = true -> lower s = s.
Proof.
  induction s as [|c s IH]; [reflexivity|].
  cbn [all_chars lower map_chars] in *. intros H.
  apply andb_true_iff in H as [H1 H2].
  rewrite (lower_numeral_char c H1). f_equal. now apply IH.
Qed.

(** Two strings that differ only by the case of their letters get the
    same answer. *)
Theorem str2bool_ignores_case (s s' : string) :
  upper s = upper s' ->
  str2bool (PStr s) = str2bool (PStr s').
Proof.
  intros H. unfold str2bool. cbn [py_str].
  now rewrite <- (lower_upper s), H, lower_upper.
Qed.

Lemma str2bool_ignores_case_witness :
  str2bool (PStr "Yes") = str2bool (PStr "yES").
Proof. apply str2bool_ignores_case. reflexivity. Defined.

Lemma str_limit_large : (1000 <= str_limit)%Z.
Proof.
  unfold str_limit, int_max_str_digits.
  change 1000%Z with (10 ^ 3)%Z. apply Z.pow_le_mono_r; [reflexivity|].
  intros H; discriminate H.
Qed.

Lemma below_str_limit (z : Z) :
  (Z.abs z < 1000)%Z -> (Z.abs z < str_limit)%Z.
Proof. intros H. apply Z.lt_le_trans with 1000%Z; [exact H | exact str_limit_large]. Qed.

Lemma py_str_int_within (z : Z) :
  (Z.abs z < str_limit)%Z -> py_str_int z = inr (str_of_int z).
Proof.
  intros H. unfold py_str_int.
  now replace (str_limit <=? Z.abs z)%Z with false by (symmetry; now apply Z.leb_gt).
Qed.

Lemma py_str_int_beyond (z : Z) :
  (str_limit <= Z.abs z)%Z -> py_str_int z = inl ValueError.
Proof.
  intros H. unfold py_str_int.
  now replace (str_limit <=? Z.abs z)%Z with true by (symmetry; now apply Z.leb_le).
Qed.

Lemma truthy_numeral (n : Z) :
  existsb (String.eqb (lower (str_of_int n))) ["yes"; "y"; "true"; "t"; "1"]
  = (n =? 1)%Z.
Proof.
  pose proof (str_of_int_chars n) as Hc.
  rewrite (lower_numeral _ Hc).
  destruct (Z.eqb_spec n 1) as [->|Hn]; [reflexivity|].
  destruct (existsb _ _) eqn:H; [exfalso | reflexivity].
  cbn [existsb] in H.
  repeat (apply orb_true_iff in H as [H|H]);
    try (apply String.eqb_eq in H; rewrite H in Hc; discriminate Hc);
    try discriminate H.
  apply String.eqb_eq in H. now apply Hn, str_of_int_inj.
Qed.

(** On a [bool] the function is the identity and [None] is false.  An
    [int] whose numeral [str] can produce is true exactly when it is 1 (so 2
    and -1 are false, unlike [bool(2)]); an [int] of more than 4300 digits
    makes [str] raise [ValueError]. *)
Theorem str2bool_of_numbers :
  (forall b, str2bool (PBool b) = inr b)
  /\ str2bool PNone = inr false
  /\ (forall n, (Z.abs n < str_limit)%Z -> str2bool (PInt n) = inr (n =? 1)%Z)
  /\ (forall n, (str_limit <= Z.abs n)%Z -> str2bool (PInt n) = inl ValueError).
Proof.
  split; [intros [|]; reflexivity|]. split; [reflexivity|]. split.
  - intros n Hn. unfold str2bool. cbn [py_str].
    rewrite (py_str_int_within n Hn). now rewrite truthy_numeral.
  - intros n Hn. unfold str2bool. cbn [py_str].
    now rewrite (py_str_int_beyond n Hn).
Qed.

Lemma str2bool_of_numbers_witness :
  str2bool (PInt 2) = inr false /\ str2bool (PInt 1) = inr true.
Proof.
  destruct str2bool_of_numbers as (_ & _ & H & _).
  split.
  - apply (H 2%Z). apply below_str_limit. reflexivity.
  - apply (H 1%Z). apply below_str_limit. reflexivity.
Defined.

(** ** [add_zero] *)

Lemma digit_cases (n : Z) :
  (0 <= n < 10)%Z ->
  n = 0%Z \/ n = 1%Z \/ n = 2%Z \/ n = 3%Z \/ n = 4%Z \/ n = 5%Z \/ n = 6%Z
  \/ n = 7%Z \/ n = 8%Z \/ n = 9%Z.
Proof. lia. Qed.

Lemma str_two_digits (n : Z) :
  (10 <= n < 100)%Z -> String.length (str_of_int n) = 2.
Proof.
  intros H.
  assert (Hk : exists k, (k < 90)%nat /\ n = (10 + Z.of_nat k)%Z).
  { exists (Z.to_nat (n - 10)). lia. }
  destruct Hk as (k & Hk & ->).
  do 90 (destruct k as [|k]; [reflexivity|]). lia.
Qed.

(** For an integer that is not negative and whose numeral [str] can
    produce (at most 4300 digits), the result reads as that integer, and
    below 100 it has exactly two characters: the zero is added to one digit,
    and only then. *)
Theorem add_zero_pads_to_two (n : Z) :
  (0 <= n < str_limit)%Z ->
  exists s,
    add_zero n = inr s
    /\ decimal_value s = Some n
    /\ ((n < 100)%Z -> String.length s = 2)
    /\ ((10 <= n)%Z -> s = str_of_int n).
Proof.
  intros Hn. unfold add_zero.
  rewrite py_str_int_within by (rewrite Z.abs_eq; lia).
  destruct (n <? 10)%Z eqn:Hlt; eexists; (split; [reflexivity|]).
  - apply Z.ltb_lt in Hlt.
    destruct (digit_cases n ltac:(lia)) as [H|H];
      repeat (destruct H as [H|H]); subst n;
      (split; [reflexivity|]; split; [reflexivity | intros; lia]).
  - apply Z.ltb_ge in Hlt.
    split; [apply decimal_value_str|]. split; [|reflexivity].
    intros H. apply str_two_digits. lia.
Qed.

Lemma add_zero_pads_to_two_witness :
  exists s,
    add_zero 7 = inr s
    /\ decimal_value s = Some 7%Z
    /\ ((7 < 100)%Z -> String.length s = 2)
    /\ ((10 <= 7)%Z -> s = str_of_int 7).
Proof.
  apply (add_zero_pads_to_two 7).
  split; [intros H; discriminate H|].
  apply (below_str_limit 7). reflexivity.
Defined.

(** On a negative integer whose numeral [str] can produce, the zero goes
    before the minus sign: the result is ["0-"] followed by the digits,
    which is not a numeral. *)
Theorem add_zero_negative (n : Z) :
  (- str_limit < n < 0)%Z ->
  add_zero n = inr ("0-" ++ str_of_int (- n))
  /\ decimal_value ("0-" ++ str_of_int (- n)) = None.
Proof.
  intros Hn. destruct n as [|p|p]; try lia.
  split.
  - unfold add_zero.
    replace (Z.neg p <? 10)%Z with true by (symmetry; apply Z.ltb_lt; lia).
    rewrite py_str_int_within by (rewrite Z.abs_neq; lia).
    reflexivity.
  - unfold decimal_value.
    cbn [append NilZero.int_of_string NilZero.uint_of_string NilEmpty.uint_of_string].
    change (Ascii.eqb "0" "-") with false. cbv iota.
    destruct (NilEmpty.uint_of_string (str_of_int (- Z.neg p))); reflexivity.
Qed.

Lemma add_zero_negative_witness :
  add_zero (-5) = inr "0-5" /\ decimal_value "0-5" = None.
Proof.
  apply (add_zero_negative (-5)).
  pose proof str_limit_large as H. lia.
Defined.

(** ** [group] *)

Lemma take_drop (n : nat) (s : string) : take n s ++ drop n s = s.
Proof.
  revert s; induction n as [|n IH]; intros [|c s]; cbn; try reflexivity.
  now rewrite IH.
Qed.

Lemma take_length (n : nat) (s : string) :
  String.length (take n s) = Nat.min n (String.length s).
Proof.
  revert s; induction n as [|n IH]; intros [|c s]; cbn; try reflexivity.
  now rewrite IH.
Qed.

Lemma drop_length (n : nat) (s : string) :
  String.length (drop n s) = String.length s - n.
Proof.
  revert s; induction n as [|n IH]; intros [|c s]; cbn; try reflexivity; try lia.
  apply IH.
Qed.

Lemma chop_last (s : string) : chop3 s ++ last3 s = s.
Proof. apply take_drop. Qed.

Lemma take_all_chars (p : ascii -> bool) (n : nat) (s : string) :
  all_chars p s = true -> all_chars p (take n s) = true.
Proof.
  revert s; induction n as [|n IH]; intros [|c s]; cbn; try reflexivity.
  intros H. apply andb_true_iff in H as [H1 H2]. now rewrite H1, IH.
Qed.

Lemma last_char_all (p : ascii -> bool) (s : string) :
  all_chars p s = true -> s <> EmptyString ->
  exists c, last_char s = Some c /\ p c = true.
Proof.
  induction s as [|c s IH]; [now intros _ H|].
  intros H _. cbn [all_chars] in H. apply andb_true_iff in H as [H1 H2].
  destruct s as [|c' s]; [now exists c|].
  destruct (IH H2) as (x & Hx & Hp); [discriminate|].
  exists x. split; [exact Hx | exact Hp].
Qed.

Lemma ends_in_digit_nonempty (s : string) :
  ends_in_digit s = true -> s <> EmptyString.
Proof. now destruct s. Qed.

Lemma append_assoc_str (a b c : string) : (a ++ b) ++ c = a ++ b ++ c.
Proof. induction a as [|x a IH]; cbn; [reflexivity | now rewrite IH]. Qed.

Lemma append_nil_r_str (s : string) : s ++ EmptyString = s.
Proof. induction s as [|c s IH]; cbn; [reflexivity | now rewrite IH]. Qed.

Lemma strip_commas_app (a b : string) :
  strip_commas (a ++ b) = strip_commas a ++ strip_commas b.
Proof.
  induction a as [|c a IH]; [reflexivity|]. cbn.
  destruct (Ascii.eqb c ","); [exact IH | cbn; now rewrite IH].
Qed.

Lemma strip_commas_join (xs : list string) :
  strip_commas (join "," xs) = strip_commas (concat_str xs).
Proof.
  induction xs as [|x [|y rest] IH].
  - reflexivity.
  - cbn. now rewrite append_nil_r_str.
  - change (join "," (x :: y :: rest)) with (x ++ "," ++ join "," (y :: rest)).
    cbn [concat_str] in *. rewrite !strip_commas_app, IH.
    now rewrite strip_commas_app.
Qed.

Lemma strip_commas_id (s : string) :
  all_chars not_comma s = true -> strip_commas s = s.
Proof.
  induction s as [|c s IH]; [reflexivity|]. cbn. unfold not_comma at 1.
  intros H. apply andb_true_iff in H as [H1 H2].
  apply negb_true_iff in H1. rewrite H1. f_equal. now apply IH.
Qed.

Lemma numeral_not_comma (c : ascii) : numeral_char c = true -> not_comma c = true.
Proof.
  destruct c as [[|] [|] [|] [|] [|] [|] [|] [|]]; intros H;
    try reflexivity; discriminate H.
Qed.

Lemma concat_str_app (xs ys : list string) :
  concat_str (xs ++ ys) = concat_str xs ++ concat_str ys.
Proof.
  induction xs as [|x xs IH]; [reflexivity|]. cbn.
  rewrite IH. induction x as [|c x IHx]; cbn; [reflexivity | now rewrite IHx].
Qed.

(** The loop only moves text from the end of [s] to the groups. *)
Lemma group_loop_keeps (fuel : nat) (s : string) (groups : list string) :
  fst (group_loop fuel s groups) ++ concat_str (rev (snd (group_loop fuel s groups)))
  = s ++ concat_str (rev groups).
Proof.
  revert s groups; induction fuel as [|k IH]; intros s groups; [reflexivity|].
  cbn [group_loop]. destruct (ends_in_digit s); [|reflexivity].
  rewrite IH, rev_app_distr. cbn [rev app concat_str].
  rewrite <- (chop_last s) at 3.
  clear. induction (chop3 s) as [|c x IHx]; cbn; [reflexivity | now rewrite IHx].
Qed.

(** With fuel for every character the loop stops by its own test. *)
Lemma group_loop_ends (fuel : nat) (s : string) (groups : list string) :
  String.length s <= fuel ->
  ends_in_digit (fst (group_loop fuel s groups)) = false.
Proof.
  revert s groups; induction fuel as [|k IH]; intros s groups Hlen.
  - destruct s; [reflexivity | cbn in Hlen; lia].
  - cbn [group_loop]. destruct (ends_in_digit s) eqn:Hd; [|exact Hd].
    apply IH. unfold chop3. rewrite take_length.
    apply ends_in_digit_nonempty in Hd. destruct s; [now elim Hd | cbn in *; lia].
Qed.

Lemma group_plain (nb digits : Z) (unit : string) :
  (Z.abs nb < float_limit)%Z -> nb <> 0%Z -> (digits <= 0)%Z ->
  group nb digits unit
  = let s := str_of_int (round_int nb digits) in
    inr (fst (group_loop (String.length s) s [])
         ++ join "," (rev (snd (group_loop (String.length s) s [])))
         ++ unit).
Proof.
  intros Hlim Hnz Hd. unfold group.
  replace (float_limit <=? Z.abs nb)%Z with false by (symmetry; apply Z.leb_gt; lia).
  replace (nb =? 0)%Z with false by (symmetry; now apply Z.eqb_neq).
  replace (0 <? digits)%Z with false by (symmetry; apply Z.ltb_ge; lia).
  cbv zeta. now destruct (group_loop _ _ _).
Qed.

(** Taking the commas out of the result gives back the numeral of the
    (rounded) integer followed by the unit: the function adds separators
    and nothing else, for negative numbers too. *)
Theorem group_only_adds_commas (nb digits : Z) (unit : string) :
  (Z.abs nb < float_limit)%Z ->
  nb <> 0%Z ->
  (digits <= 0)%Z ->
  exists r,
    group nb digits unit = inr r
    /\ strip_commas r = str_of_int (round_int nb digits) ++ strip_commas unit.
Proof.
  intros Hlim Hnz Hd. rewrite (group_plain nb digits unit Hlim Hnz Hd). cbv zeta.
  eexists. split; [reflexivity|].
  set (s := str_of_int (round_int nb digits)).
  pose proof (group_loop_keeps (String.length s) s []) as Hkeep.
  cbn [rev concat_str] in Hkeep. rewrite append_nil_r_str in Hkeep.
  assert (Hs : strip_commas s = s).
  { apply strip_commas_id.
    apply (all_chars_weaken numeral_char); [exact numeral_not_comma|].
    apply str_of_int_chars. }
  rewrite !strip_commas_app, strip_commas_join.
  rewrite <- append_assoc_str, <- strip_commas_app, Hkeep, Hs.
  reflexivity.
Qed.

Lemma group_only_adds_commas_witness :
  exists r,
    group (-1234567) 0 "%" = inr r
    /\ strip_commas r = str_of_int (round_int (-1234567) 0) ++ strip_commas "%".
Proof.
  apply (group_only_adds_commas (-1234567) 0 "%").
  - vm_compute. reflexivity.
  - discriminate.
  - lia.
Defined.

(** On a string of digits the loop takes everything, three characters at a
    time from the right. *)
Lemma group_loop_digits (fuel : nat) (s : string) (groups : list string) :
  all_chars is_digit s = true ->
  String.length s <= fuel ->
  exists gs,
    group_loop fuel s groups = (EmptyString, groups ++ gs)%list
    /\ concat_str (rev gs) = s
    /\ Forall (fun c => String.length c = 3) (tl (rev gs))
    /\ (s <> EmptyString -> 1 <= String.length (hd EmptyString (rev gs)) <= 3)
    /\ (s = EmptyString -> gs = []).
Proof.
  revert s groups; induction fuel as [|k IH]; intros s groups Hdig Hlen.
  - destruct s; [|cbn in Hlen; lia].
    exists []. rewrite app_nil_r.
    split; [reflexivity|]. split; [reflexivity|]. split; [constructor|].
    split; [intros Hx; now elim Hx | reflexivity].
  - destruct s as [|c0 s0] eqn:Es.
    { exists []. rewrite app_nil_r.
      split; [reflexivity|]. split; [reflexivity|]. split; [constructor|].
      split; [intros Hx; now elim Hx | reflexivity]. }
    rewrite <- Es in *.
    assert (Hne : s <> EmptyString) by (rewrite Es; discriminate).
    assert (Hend : ends_in_digit s = true).
    { unfold ends_in_digit.
      destruct (last_char_all is_digit s Hdig Hne) as (x & -> & Hx). exact Hx. }
    cbn [group_loop]. rewrite Hend.
    assert (Hl : 1 <= String.length s) by (rewrite Es; cbn; lia).
    destruct (IH (chop3 s) (groups ++ [last3 s])%list) as (gs & Hrun & Hcat & Hthree & Hhd & Hnil).
    { now apply take_all_chars. }
    { unfold chop3. rewrite take_length. lia. }
    exists (last3 s :: gs). rewrite Hrun, <- app_assoc. split; [reflexivity|].
    cbn [rev]. rewrite concat_str_app, Hcat. cbn [concat_str].
    rewrite append_nil_r_str. split; [apply chop_last|].
    assert (Hlast : String.length (last3 s) = Nat.min 3 (String.length s)).
    { unfold last3. rewrite drop_length. lia. }
    assert (Hchop : String.length (chop3 s) = String.length s - 3).
    { unfold chop3. rewrite take_length. lia. }
    destruct (le_lt_dec (String.length s) 3) as [Hshort|Hlong].
    + assert (Hc : chop3 s = EmptyString).
      { destruct (chop3 s); [reflexivity | cbn in Hchop; lia]. }
      rewrite (Hnil Hc). cbn [rev app tl hd].
      split; [constructor|]. split; [intros _; lia | intros H; now elim Hne].
    + assert (Hc : chop3 s <> EmptyString).
      { intros H. rewrite H in Hchop. cbn in Hchop. lia. }
      specialize (Hhd Hc).
      destruct (rev gs) as [|h t] eqn:Er.
      { cbn in Hcat. now elim Hc. }
      cbn [app tl hd] in *.
      split; [apply Forall_app; split; [exact Hthree | repeat constructor; lia]|].
      split; [intros _; exact Hhd | intros H; now elim Hne].
Qed.

Lemma round_int_nonneg (nb digits : Z) :
  (0 < nb)%Z -> (0 <= round_int nb digits)%Z.
Proof.
  intros Hnb. unfold round_int.
  destruct (0 <=? digits)%Z eqn:Hd; [lia|].
  apply Z.leb_gt in Hd.
  assert (Hp : (0 < 10 ^ (- digits))%Z) by (apply Z.pow_pos_nonneg; lia).
  assert (Hq : (0 <= nb / 10 ^ (- digits))%Z) by (apply Z.div_pos; lia).
  cbv zeta. destruct (_ || _); nia.
Qed.

(** For a positive integer the digits are cut into groups joined by
    commas: the groups put together are the numeral, the first group has
    one to three digits and every other group exactly three. *)
Theorem group_by_three (nb digits : Z) (unit : string) :
  (0 < nb < float_limit)%Z ->
  (digits <= 0)%Z ->
  exists chunks,
    group nb digits unit = inr (join "," chunks ++ unit)
    /\ concat_str chunks = str_of_int (round_int nb digits)
    /\ 1 <= String.length (hd EmptyString chunks) <= 3
    /\ Forall (fun c => String.length c = 3) (tl chunks).
Proof.
  intros Hnb Hd.
  rewrite (group_plain nb digits unit) by lia. cbv zeta.
  set (s := str_of_int (round_int nb digits)).
  assert (Hdig : all_chars is_digit s = true).
  { apply str_of_nonneg_digits, round_int_nonneg. lia. }
  destruct (group_loop_digits (String.length s) s [] Hdig (le_n _))
    as (gs & Hrun & Hcat & Hthree & Hhd & _).
  rewrite Hrun. cbn [fst snd app append].
  exists (rev gs). repeat split; try assumption;
    apply Hhd, str_of_int_nonempty.
Qed.

Lemma group_by_three_witness :
  exists chunks,
    group 12345 0 EmptyString = inr (join "," chunks ++ EmptyString)
    /\ concat_str chunks = str_of_int (round_int 12345 0)
    /\ 1 <= String.length (hd EmptyString chunks) <= 3
    /\ Forall (fun c => String.length c = 3) (tl chunks).
Proof.
  apply (group_by_three 12345 0 EmptyString).
  - split; [lia | vm_compute; reflexivity].
  - lia.
Defined.

Lemma single_char_absent (p : ascii -> bool) (c : ascii) (s : string) :
  all_chars p s = true -> p c = false -> py_in (String c EmptyString) s = false.
Proof.
  intros Hs Hc. induction s as [|x s IH]; [reflexivity|].
  cbn [all_chars] in Hs. apply andb_true_iff in Hs as [Hx Hs].
  cbn [py_in prefix]. rewrite (IH Hs).
  destruct (ascii_dec c x) as [->|_]; [congruence | reflexivity].
Qed.

(** With a positive [digits] an integer argument always fails: its
    numeral has no decimal point, so line 152 raises [IndexError]. *)
Theorem group_digits_needs_float (nb digits : Z) (unit : string) :
  (Z.abs nb < float_limit)%Z ->
  nb <> 0%Z ->
  (0 < digits)%Z ->
  group nb digits unit = inl IndexError.
Proof.
  intros Hlim Hnz Hd. unfold group.
  replace (float_limit <=? Z.abs nb)%Z with false by (symmetry; apply Z.leb_gt; lia).
  replace (nb =? 0)%Z with false by (symmetry; now apply Z.eqb_neq).
  replace (0 <? digits)%Z with true by (symmetry; apply Z.ltb_lt; lia).
  cbv zeta. rewrite split_second by discriminate.
  rewrite after_first_absent; [reflexivity|].
  apply (single_char_absent numeral_char); [apply str_of_int_chars | reflexivity].
Qed.

Lemma group_digits_needs_float_witness :
  group 12345 3 EmptyString = inl IndexError.
Proof.
  apply (group_digits_needs_float 12345 3 EmptyString).
  - vm_compute. reflexivity.
  - discriminate.
  - lia.
Defined.

(** ** [week_sunday] *)

Lemma sunday_index (d : Z) : ((weekday d + 1) mod 7 = d mod 7)%Z.
Proof. unfold weekday. Z.to_euclidean_division_equations; lia. Qed.

(** From the first Sunday of the calendar on, the date returned is a
    Sunday, it is the given date or one of the six days before it, and it
    is its own answer. *)
Theorem week_sunday_is_last_sunday (today : Z) (iso_week : Z -> Z) (d : Z) :
  valid_date d ->
  (7 <= d)%Z ->
  exists s,
    week_sunday today iso_week (Some d) false = inr (ADate s)
    /\ weekday s = 6%Z
    /\ (s <= d < s + 7)%Z
    /\ valid_date s
    /\ week_sunday today iso_week (Some s) false = inr (ADate s).
Proof.
  unfold valid_date, max_ordinal. intros Hd H7.
  assert (Hs : forall x, (7 <= x <= 3652059)%Z ->
            week_sunday today iso_week (Some x) false = inr (ADate (x - x mod 7))).
  { intros x Hx. unfold week_sunday, date_minus_days. rewrite sunday_index.
    replace ((0 <? x - x mod 7)%Z && (x - x mod 7 <=? max_ordinal)%Z) with true;
      [reflexivity|].
    symmetry. apply andb_true_iff. unfold max_ordinal.
    split; [apply Z.ltb_lt | apply Z.leb_le];
      Z.to_euclidean_division_equations; lia. }
  exists (d - d mod 7)%Z.
  split; [apply Hs; lia|].
  split; [unfold weekday; Z.to_euclidean_division_equations; lia|].
  split; [Z.to_euclidean_division_equations; lia|].
  split; [Z.to_euclidean_division_equations; lia|].
  rewrite Hs by (Z.to_euclidean_division_equations; lia).
  do 2 f_equal. Z.to_euclidean_division_equations; lia.
Qed.

Lemma week_sunday_is_last_sunday_witness :
  exists s,
    week_sunday 1 (fun _ => 0%Z) (Some 737530%Z) false = inr (ADate s)
    /\ weekday s = 6%Z
    /\ (s <= 737530 < s + 7)%Z
    /\ valid_date s
    /\ week_sunday 1 (fun _ => 0%Z) (Some s) false = inr (ADate s).
Proof.
  apply (week_sunday_is_last_sunday 1 (fun _ => 0%Z) 737530).
  - unfold valid_date, max_ordinal. lia.
  - lia.
Defined.

(** In the first six days of the calendar (0001-01-01 is a Monday) there
    is no earlier Sunday: the subtraction of line 211 raises
    [OverflowError], whichever answer was asked for. *)
Theorem week_sunday_before_first_sunday (today : Z) (iso_week : Z -> Z)
  (d : Z) (return_week_nb : bool) :
  (1 <= d <= 6)%Z ->
  week_sunday today iso_week (Some d) return_week_nb = inl OverflowError.
Proof.
  intros Hd. unfold week_sunday, date_minus_days. rewrite sunday_index.
  replace (d mod 7)%Z with d by (Z.to_euclidean_division_equations; lia).
  now rewrite Z.sub_diag.
Qed.

Lemma week_sunday_before_first_sunday_witness :
  week_sunday 1 (fun _ => 0%Z) (Some 3%Z) true = inl OverflowError.
Proof. apply week_sunday_before_first_sunday. lia. Defined.

(** ** [display_name] *)

Lemma display_name_unfold (w : NameWorld) (display : string) :
  display_name w display
  = match system_name w with
    | inl _ => getuser w
    | inr user =>
        match pick_name display user with
        | inl _ => getuser w
        | inr name => inr name
        end
    end.
Proof.
  unfold display_name, system_name.
  destruct (existsb _ _); [destruct (win_display_name w) | destruct (pwd_gecos w)];
    reflexivity.
Qed.

Lemma cut_at_comma (a b : string) :
  all_chars not_comma a = true ->
  before ", " (a ++ ", " ++ b) = a
  /\ after_first ", " (a ++ ", " ++ b) = Some b.
Proof.
  intros Ha. induction a as [|c a IH].
  - cbn [append]. split.
    + rewrite before_cons.
      change (", " ++ b) with (String "," (String " " b)).
      cbn [prefix]. now rewrite prefix_empty.
    + cbn [after_first prefix]. now rewrite prefix_empty.
  - cbn [all_chars] in Ha. apply andb_true_iff in Ha as [Hc Ha].
    destruct (IH Ha) as [IH1 IH2].
    assert (Hp : prefix ", " (String c (a ++ ", " ++ b)) = false).
    { cbn [prefix]. destruct (ascii_dec "," c) as [<-|_]; [discriminate Hc | reflexivity]. }
    change (String c a ++ ", " ++ b) with (String c (a ++ ", " ++ b)).
    split.
    + rewrite before_cons, Hp. now rewrite IH1.
    + cbn [after_first]. now rewrite Hp.
Qed.

Lemma before_absent (sep s : string) :
  py_in sep s = false -> before sep s = s.
Proof.
  induction s as [|c s IH]; [reflexivity|].
  cbn [py_in]. intros H. apply orb_false_iff in H as [H1 H2].
  rewrite before_cons, H1. now rewrite IH.
Qed.

(** For a full name written [Last, First], with no comma in the last name
    and no further [", "] in the first, ['first'] gives the first name,
    ['last'] the last name and anything else the full name. *)
Theorem display_name_last_first (w : NameWorld) (last first display : string) :
  system_name w = inr (last ++ ", " ++ first) ->
  all_chars not_comma last = true ->
  py_in ", " first = false ->
  display_name w "first" = inr first
  /\ display_name w "last" = inr last
  /\ (display <> "first" -> display <> "last" ->
      display_name w display = inr (last ++ ", " ++ first)).
Proof.
  intros Hsys Hlast Hfirst.
  destruct (cut_at_comma last first Hlast) as [Hb Ha].
  rewrite !display_name_unfold, Hsys. unfold pick_name.
  split; [|split].
  - cbn [String.eqb Ascii.eqb Bool.eqb].
    rewrite split_second by discriminate. rewrite Ha. cbn [option_map].
    now rewrite before_absent.
  - cbn [String.eqb Ascii.eqb Bool.eqb].
    rewrite split_unfold by discriminate. cbn [nth_error]. now rewrite Hb.
  - intros H1 H2. apply String.eqb_neq in H1, H2. now rewrite H1, H2.
Qed.

Lemma display_name_last_first_witness :
  let w := {| platform := "linux"; win_display_name := inl (OtherError "no ctypes");
              pwd_gecos := inr "Lovelace, Ada"; getuser := inr "ada" |} in
  display_name w "first" = inr "Ada" /\ display_name w "last" = inr "Lovelace".
Proof.
  intros w.
  destruct (display_name_last_first w "Lovelace" "Ada" "full" eq_refl eq_refl eq_refl)
    as (H1 & H2 & _).
  split; assumption.
Defined.

(** A full name without [", "] has no first name to give: the
    [IndexError] of the split is caught and ['first'] answers the login
    name (or fails as [getpass.getuser] does), while ['last'] answers the
    whole name. *)
Theorem display_name_falls_back_to_login (w : NameWorld) (user : string) :
  system_name w = inr user ->
  py_in ", " user = false ->
  display_name w "first" = getuser w
  /\ display_name w "last" = inr user.
Proof.
  intros Hsys Hno. rewrite !display_name_unfold, Hsys. unfold pick_name.
  cbn [String.eqb Ascii.eqb Bool.eqb].
  rewrite split_second by discriminate.
  rewrite (after_first_absent _ _ Hno). cbn [option_map].
  split; [reflexivity|].
  rewrite split_unfold by discriminate. cbn [nth_error].
  now rewrite before_absent.
Qed.

Lemma display_name_falls_back_to_login_witness :
  let w := {| platform := "win32"; win_display_name := inr "Ada Lovelace";
              pwd_gecos := inl (OtherError "no pwd"); getuser := inr "ada" |} in
  display_name w "first" = inr "ada" /\ display_name w "last" = inr "Ada Lovelace".
Proof.
  intros w.
  apply (display_name_falls_back_to_login w "Ada Lovelace"); reflexivity.
Defined.

(** ** [send_email] *)

Ltac smtp_answers :=
  unfold mail_call;
  repeat match goal with
         | |- context [match ?x with Some _ => _ | None => _ end] => destruct x eqn:?
         end;
  cbn [fst snd app In].

(** The port of the SMTP address is [str] of whatever the configuration
    holds under [EMAIL_PORT] whenever [str] returns, so a configuration
    without the key leads to the address [host:None] and not to the default;
    the ['587'] of line 89 is used when [str] raises, as it does on an [int]
    of more than 4300 digits. *)
Theorem send_email_port_fallback (w : MailWorld)
  (to subject body cc connection : string) :
  In (SmtpOpen connection) (mail_trace (send_email w to subject body cc)) ->
  exists host,
    config w "EMAIL_SMTP" = PStr host
    /\ (forall port, py_str (config w "EMAIL_PORT") = inr port ->
                     connection = host ++ ":" ++ port)
    /\ (config w "EMAIL_PORT" = PNone -> connection = host ++ ":None")
    /\ ((exists e, py_str (config w "EMAIL_PORT") = inl e) ->
        connection = host ++ ":587")
    /\ (forall z, config w "EMAIL_PORT" = PInt z -> (str_limit <= Z.abs z)%Z ->
                  connection = host ++ ":587").
Proof.
  assert (Hport : forall host,
            connection = host ++ ":" ++ smtp_port (config w "EMAIL_PORT") ->
            (forall port, py_str (config w "EMAIL_PORT") = inr port ->
                          connection = host ++ ":" ++ port)
            /\ (config w "EMAIL_PORT" = PNone -> connection = host ++ ":None")
            /\ ((exists e, py_str (config w "EMAIL_PORT") = inl e) ->
                connection = host ++ ":587")
            /\ (forall z, config w "EMAIL_PORT" = PInt z -> (str_limit <= Z.abs z)%Z ->
                          connection = host ++ ":587")).
  { intros host ->. unfold smtp_port. split; [|split; [|split]].
    - intros port Hp. now rewrite Hp.
    - intros Hp. now rewrite Hp.
    - intros [e He]. now rewrite He.
    - intros z Hz Hbig. rewrite Hz. cbn [py_str].
      now rewrite (py_str_int_beyond z Hbig). }
  unfold mail_trace, send_email, mail_bind, mail_call_val.
  destruct (as_string w _ body _) as [e|text]; cbn [fst In];
    [intros [H|[]]; discriminate H|].
  unfold smtp_address.
  destruct (config w "EMAIL_SMTP") as [| | |host] eqn:Hhost;
    unfold mail_raise; cbn [fst app In]; try (intros [H|[]]; discriminate H).
  smtp_answers; intros H;
    repeat match type of H with
           | _ \/ _ => destruct H as [H|H]
           | False => destruct H
           | MimeAsString _ _ _ = _ => discriminate H
           | SmtpStartTLS = _ => discriminate H
           | SmtpLogin _ _ = _ => discriminate H
           | SmtpSendmail _ _ _ = _ => discriminate H
           | SmtpQuit = _ => discriminate H
           end.
  all: injection H as H; symmetry in H; exists host; split; [reflexivity|];
    now apply Hport.
Qed.

Lemma send_email_port_fallback_witness :
  exists host,
    config (quiet_mail portless_config) "EMAIL_SMTP" = PStr host
    /\ (forall port, py_str (config (quiet_mail portless_config) "EMAIL_PORT") = inr port ->
                     "smtp.gmail.com:None" = host ++ ":" ++ port)
    /\ (config (quiet_mail portless_config) "EMAIL_PORT" = PNone ->
        "smtp.gmail.com:None" = host ++ ":None")
    /\ ((exists e, py_str (config (quiet_mail portless_config) "EMAIL_PORT") = inl e) ->
        "smtp.gmail.com:None" = host ++ ":587")
    /\ (forall z, config (quiet_mail portless_config) "EMAIL_PORT" = PInt z ->
                  (str_limit <= Z.abs z)%Z ->
                  "smtp.gmail.com:None" = host ++ ":587").
Proof.
  apply (send_email_port_fallback (quiet_mail portless_config)
           "you@domain.com" "Hello" "This is a test" EmptyString).
  vm_compute. right. left. reflexivity.
Defined.



(** A call that fails never quits the server: where [server.quit()]
    itself returns, an error means it was not called, whether or not the
    server had been opened (lines 91-97 have no [finally]). *)
Theorem send_email_failure_skips_quit (w : MailWorld)
  (to subject body cc : string) (e : error) :
  quit w = None ->
  mail_outcome (send_email w to subject body cc) = inl e ->
  ~ In SmtpQuit (mail_trace (send_email w to subject body cc)).
Proof.
  intros Hquit.
  unfold mail_outcome, mail_trace, send_email, mail_bind, mail_call_val.
  destruct (as_string w _ body _) as [x|text]; cbn [fst snd In];
    [intros _ [H|[]]; discriminate H|].
  unfold smtp_address.
  destruct (config w "EMAIL_SMTP") as [| | |host];
    unfold mail_raise; cbn [fst snd app In];
    try (intros _ [H|[]]; discriminate H).
  rewrite Hquit.
  smtp_answers; intros H; try discriminate H; intros Hin;
    repeat (destruct Hin as [Hin|Hin]; [discriminate Hin|]); destruct Hin.
Qed.

Lemma send_email_failure_skips_quit_witness :
  In (SmtpOpen "smtp.gmail.com:587")
     (mail_trace (send_email (refusing_mail gmail_config) "you@domain.com" "Hello"
                    "This is a test" EmptyString))
  /\ ~ In SmtpQuit
       (mail_trace (send_email (refusing_mail gmail_config) "you@domain.com" "Hello"
                      "This is a test" EmptyString)).
Proof.
  split.
  - vm_compute. right. left. reflexivity.
  - apply (send_email_failure_skips_quit (refusing_mail gmail_config) "you@domain.com"
             "Hello" "This is a test" EmptyString
             (OtherError "authentication failed"));
      reflexivity.
Defined.

(** Without a string under [EMAIL_SMTP] the address cannot be built: the
    call fails with [TypeError] once the message has been serialised, and no
    server is contacted. *)
Theorem send_email_needs_host (w : MailWorld) (to subject body cc : string) :
  (forall host, config w "EMAIL_SMTP" <> PStr host) ->
  (exists e, mail_outcome (send_email w to subject body cc) = inl e)
  /\ Forall (fun ev => is_smtp_event ev = false)
            (mail_trace (send_email w to subject body cc))
  /\ (forall text,
        as_string w [("From", config w "EMAIL_SENDER"); ("To", PStr to);
                     ("Cc", PStr cc); ("Subject", PStr subject)]
                  body (if py_in "</" body then "html" else "plain") = inr text ->
        mail_outcome (send_email w to subject body cc) = inl TypeError).
Proof.
  intros Hhost.
  assert (Hcc : (if cc =? EmptyString then EmptyString else cc) = cc).
  { destruct (cc =? EmptyString) eqn:E; [|reflexivity].
    apply String.eqb_eq in E. now subst cc. }
  unfold mail_outcome, mail_trace, send_email, mail_bind, mail_call_val.
  rewrite Hcc.
  destruct (as_string w _ body _) as [x|text]; cbn [fst snd].
  { split; [now exists x|]. split; [repeat constructor | intros t [=]]. }
  unfold smtp_address.
  destruct (config w "EMAIL_SMTP") as [| | |host] eqn:E;
    try (now elim (Hhost host));
    unfold mail_raise; cbn [fst snd app];
    (split; [now exists TypeError|]; split; [repeat constructor | reflexivity]).
Qed.

Lemma send_email_needs_host_witness :
  exists e,
    mail_outcome (send_email (quiet_mail (fun _ => PNone)) "you@domain.com" "Hello"
                    "This is a test" EmptyString) = inl e.
Proof.
  apply (proj1 (send_email_needs_host (quiet_mail (fun _ => PNone)) "you@domain.com"
                  "Hello" "This is a test" EmptyString
                  ltac:(intros host; discriminate))).
Defined.
